(** * express-session (index.js): a shallow embedding of the session
      middleware and the properties of its decision logic.

    The development follows the layout of [index.js]:
    - [JS]       : the JavaScript values the middleware inspects (truthiness,
                   [||], strict equality) and the string primitives it calls;
    - [Crc32]    : the checksum of the [buffer-crc32] dependency;
    - [Json]     : [JSON.stringify] with the replacer that [hash] passes;
    - [Session]  : the middleware itself: option defaulting, the request
                   entry, the store callbacks, the header hook and the
                   overridden [res.end]. *)

From Stdlib Require Import ZArith List Bool Ascii String DecimalString Lia.
Import ListNotations.

Local Open Scope string_scope.
Set Warnings "-register-all".

(* ------------------------------------------------------------------ *)
(** ** JavaScript values and string primitives *)

Module JS.

(** The values that reach the middleware as options, request fields and
    session data.  [JNum] stands for the integer-valued numbers; [JObj] lists
    the own enumerable string-keyed properties of an object in the order in
    which the engine enumerates them (for keys that are not array indices
    this is the order of insertion). *)
Inductive jsval : Type :=
| JUndefined
| JNull
| JBool (b : bool)
| JNum (z : Z)
| JStr (s : string)
| JArr (elems : list jsval)
| JObj (props : list (string * jsval)).

(** [ToBoolean]. *)
Definition truthy (v : jsval) : bool :=
  match v with
  | JUndefined | JNull => false
  | JBool b => b
  | JNum z => negb (z =? 0)%Z
  | JStr s => negb (s =? EmptyString)
  | JArr _ | JObj _ => true
  end.

(** [a || b] yields [a] itself when it is truthy, and [b] otherwise. *)
Definition js_or (a b : jsval) : jsval := if truthy a then a else b.

(** [a && b] yields [a] itself when it is falsy, and [b] otherwise. *)
Definition js_and (a b : jsval) : jsval := if truthy a then b else a.

(** [v === undefined], [v === true], [v === false], [v === 'str']. *)
Definition is_undefined (v : jsval) : bool :=
  match v with JUndefined => true | _ => false end.

Definition strict_eq_bool (v : jsval) (b : bool) : bool :=
  match v with JBool b' => Bool.eqb b' b | _ => false end.

Definition strict_eq_str (v : jsval) (s : string) : bool :=
  match v with JStr s' => (s' =? s) | _ => false end.

(** A value that is either [undefined] or a string (a cookie value, a
    request header, a session id): [None] is [undefined]. *)
Definition optstr_truthy (o : option string) : bool :=
  match o with
  | Some s => negb (s =? EmptyString)
  | None => false
  end.

(** [a || b] where [a] is such a value and [b] a string. *)
Definition optstr_or (a : option string) (b : string) : string :=
  match a with
  | Some s => if s =? EmptyString then b else s
  | None => b
  end.

(** [a != b] on two such values: [undefined] equals only itself, strings
    compare by content. *)
Definition optstr_neq (a b : option string) : bool :=
  match a, b with
  | None, None => false
  | Some x, Some y => negb (x =? y)
  | _, _ => true
  end.

(** [a != b] where each side is [undefined] or a number. *)
Definition optnum_neq (a b : option Z) : bool :=
  match a, b with
  | None, None => false
  | Some x, Some y => negb (x =? y)%Z
  | _, _ => true
  end.

(** [String.prototype.indexOf] for a one-character needle: [None] is -1. *)
Fixpoint index_of_char (c : ascii) (s : string) : option nat :=
  match s with
  | EmptyString => None
  | String d rest =>
      if Ascii.eqb c d then Some 0
      else option_map S (index_of_char c rest)
  end.

(** [s.substr(0, n)]. *)
Definition substr0 (n : nat) (s : string) : string := String.substring 0 n s.

Definition lower_char (c : ascii) : ascii :=
  let n := nat_of_ascii c in
  if andb (65 <=? n)%nat (n <=? 90)%nat then ascii_of_nat (n + 32) else c.

(** [String.prototype.toLowerCase] on the ASCII letters. *)
Fixpoint toLowerCase (s : string) : string :=
  match s with
  | EmptyString => EmptyString
  | String c rest => String (lower_char c) (toLowerCase rest)
  end.

(** White space and line terminators among the ASCII characters. *)
Definition is_space (c : ascii) : bool :=
  let n := nat_of_ascii c in
  orb (andb (9 <=? n)%nat (n <=? 13)%nat) (n =? 32)%nat.

Fixpoint trim_left (s : string) : string :=
  match s with
  | EmptyString => EmptyString
  | String c rest => if is_space c then trim_left rest else s
  end.

Fixpoint rev_string (s : string) : string :=
  match s with
  | EmptyString => EmptyString
  | String c rest => rev_string rest ++ String c EmptyString
  end.

(** [String.prototype.trim]. *)
Definition trim (s : string) : string :=
  rev_string (trim_left (rev_string (trim_left s))).

(** [String.prototype.indexOf(needle)] compared with 0, as the path check of
    the middleware uses it. *)
Definition starts_with (needle s : string) : bool := String.prefix needle s.

End JS.

Import JS.

(* ------------------------------------------------------------------ *)
(** ** CRC-32, as [buffer-crc32] computes it *)

Module Crc32.

Local Open Scope Z_scope.

Definition mask32 : Z := 0xFFFFFFFF.

(** One entry of the table: eight shift-and-conditionally-xor rounds with the
    reflected polynomial. *)
Fixpoint table_rounds (k : nat) (c : Z) : Z :=
  match k with
  | O => c
  | S k' =>
      table_rounds k'
        (if Z.testbit c 0 then Z.lxor 0xEDB88320 (Z.shiftr c 1)
         else Z.shiftr c 1)
  end.

Definition table_entry (i : Z) : Z := table_rounds 8 i.

(** [crc = CRC_TABLE[(crc ^ buf[n]) & 0xff] ^ (crc >>> 8)], on the unsigned
    32-bit representation of [crc]. *)
Definition step (crc : Z) (byte : Z) : Z :=
  Z.lxor (table_entry (Z.land (Z.lxor crc byte) 0xFF)) (Z.shiftr crc 8).

Definition bytes_of_string (s : string) : list Z :=
  map (fun c => Z.of_nat (nat_of_ascii c)) (list_ascii_of_string s).

(** The unsigned checksum: start from [0 ^ -1], fold the bytes, xor with -1. *)
Definition unsigned (s : string) : Z :=
  Z.lxor (fold_left step (bytes_of_string s) mask32) mask32.

(** [crc32.signed]: the same 32 bits read as a two's-complement integer. *)
Definition signed (s : string) : Z :=
  let u := unsigned s in
  if u <? 2 ^ 31 then u else u - 2 ^ 32.

End Crc32.

(* ------------------------------------------------------------------ *)
(** ** [JSON.stringify(value, replacer)] *)

Module Json.

Definition dquote : ascii := ascii_of_nat 34.
Definition backslash : ascii := ascii_of_nat 92.

Definition str1 (c : ascii) : string := String c EmptyString.

Definition hex_digit (n : nat) : ascii :=
  if (n <? 10)%nat then ascii_of_nat (48 + n) else ascii_of_nat (87 + n).

(** The escape of one character inside a JSON string literal. *)
Definition quote_char (c : ascii) : string :=
  let n := nat_of_ascii c in
  if (n =? 34)%nat then String backslash (str1 dquote)
  else if (n =? 92)%nat then String backslash (str1 backslash)
  else if (n =? 8)%nat then String backslash "b"
  else if (n =? 12)%nat then String backslash "f"
  else if (n =? 10)%nat then String backslash "n"
  else if (n =? 13)%nat then String backslash "r"
  else if (n =? 9)%nat then String backslash "t"
  else if (n <? 32)%nat then
    String backslash
      ("u00" ++ String (hex_digit (n / 16)) (str1 (hex_digit (n mod 16))))
  else str1 c.

Fixpoint quote_body (s : string) : string :=
  match s with
  | EmptyString => EmptyString
  | String c rest => quote_char c ++ quote_body rest
  end.

(** [Quote(s)]. *)
Definition quote (s : string) : string :=
  String dquote (quote_body s ++ str1 dquote).

(** The decimal rendering of an integer-valued number. *)
Definition number_to_string (z : Z) : string :=
  NilZero.string_of_int (Z.to_int z).

Fixpoint join (sep : string) (l : list string) : string :=
  match l with
  | [] => EmptyString
  | [x] => x
  | x :: rest => x ++ sep ++ join sep rest
  end.

(** The replacer that [hash] hands to [JSON.stringify]:
    [function(key, val){ if ('cookie' != key) return val; }]. *)
Definition replacer (key : string) (val : jsval) : jsval :=
  if negb ("cookie" =? key) then val else JUndefined.

(** Keeps the serialised members of an object: a property whose value
    serialises to [undefined] is left out. *)
Fixpoint members (l : list (string * option string)) : list string :=
  match l with
  | [] => []
  | (k, Some s) :: rest => (quote k ++ ":" ++ s) :: members rest
  | (_, None) :: rest => members rest
  end.

(** The key under which the [i]-th element of an array is visited. *)
Definition index_key (i : nat) : string :=
  NilZero.string_of_uint (Nat.to_uint i).

(** [SerializeJSONProperty(key, holder)] under that replacer: the value found
    under [key] is replaced by what [replacer key val] returns and the result
    is serialised; [None] is [undefined].  The test on the key is written
    out so that the recursion is structural; [serialize_property_replacer]
    below relates it to [replacer].  A property that comes out [undefined] is
    left out of its object, an array element that does is written [null]. *)
Fixpoint serialize_property (key : string) (val : jsval) : option string :=
  if "cookie" =? key then None
  else
    match val with
    | JUndefined => None
    | JNull => Some "null"
    | JBool true => Some "true"
    | JBool false => Some "false"
    | JNum z => Some (number_to_string z)
    | JStr s => Some (quote s)
    | JArr elems =>
        let fix go (i : nat) (l : list jsval) : list string :=
          match l with
          | [] => []
          | e :: rest =>
              match serialize_property (index_key i) e with
              | Some s => s
              | None => "null"
              end :: go (S i) rest
          end in
        Some ("[" ++ join "," (go 0 elems) ++ "]")
    | JObj props =>
        let fix go (l : list (string * jsval))
          : list (string * option string) :=
          match l with
          | [] => []
          | (k, e) :: rest => (k, serialize_property k e) :: go rest
          end in
        Some ("{" ++ join "," (members (go props)) ++ "}")
    end.

(** The members of an object, each serialised under its own key. *)
Definition serialize_props (props : list (string * jsval))
  : list (string * option string) :=
  map (fun ke => (fst ke, serialize_property (fst ke) (snd ke))) props.

(** [JSON.stringify(value, replacer)]: the value is visited under the empty
    key of its wrapper object. *)
Definition stringify (v : jsval) : option string :=
  serialize_property EmptyString v.

End Json.

(** [hash(sess)]: [crc32.signed(JSON.stringify(sess, replacer))].  [None]
    stands for the exception [crc32.signed] raises when [JSON.stringify]
    returns [undefined]. *)
Definition hash (sess : jsval) : option Z :=
  option_map Crc32.signed (Json.stringify sess).

(* ------------------------------------------------------------------ *)
(** ** The middleware *)

Module Middleware.

(** *** Cookies and sessions *)

(** The [cookie] option of [session(options)]. *)
Record CookieOptions : Type := {
  co_path : option string;
  co_httpOnly : option bool;
  co_secure : option bool;
  co_maxAge : option Z;
  co_domain : option string;
  co_sameSite : option string
}.

(** [options.cookie || {}]. *)
Definition no_cookie_options : CookieOptions :=
  {| co_path := None; co_httpOnly := None; co_secure := None;
     co_maxAge := None; co_domain := None; co_sameSite := None |}.

Record Cookie : Type := {
  path : string;
  httpOnly : bool;
  secure : bool;
  domain : option string;
  sameSite : option string;
  originalMaxAge : option Z;
  expires : option Z            (* [None] is [null]: a session cookie *)
}.

Definition set_expires (e : option Z) (c : Cookie) : Cookie :=
  {| path := path c; httpOnly := httpOnly c; secure := secure c;
     domain := domain c; sameSite := sameSite c;
     originalMaxAge := originalMaxAge c; expires := e |}.

(** Modelled from the spec: [new Cookie(options)] of session/cookie.js, which
    is not among the sources.  Defaults: path "/", httpOnly true, secure
    false, no maxAge, no domain, no sameSite; a maxAge sets
    [expires = now + maxAge] and is kept as [originalMaxAge]. *)
Definition new_Cookie (now : Z) (o : CookieOptions) : Cookie :=
  {| path := match co_path o with Some p => p | None => "/" end;
     httpOnly := match co_httpOnly o with Some b => b | None => true end;
     secure := match co_secure o with Some b => b | None => false end;
     domain := co_domain o;
     sameSite := co_sameSite o;
     originalMaxAge := co_maxAge o;
     expires := option_map (fun ms => (now + ms)%Z) (co_maxAge o) |}.

(** A session object: the non-enumerable [id], the [cookie] property and the
    remaining own enumerable properties (the application's data) in
    enumeration order. *)
Record Session : Type := {
  id : option string;
  cookie : Cookie;
  data : list (string * jsval)
}.

(** Modelled from the spec: [new Session(req)] of session/session.js, which
    is not among the sources: a session bound to the id the request holds
    at that moment, with blank data.  The cookie is the one the caller
    assigns to it next. *)
Definition new_Session (sid : option string) (c : Cookie) : Session :=
  {| id := sid; cookie := c; data := [] |}.

Definition set_cookie (c : Cookie) (s : Session) : Session :=
  {| id := id s; cookie := c; data := data s |}.

Definition opt_json {A : Type} (f : A -> jsval) (o : option A) : jsval :=
  match o with Some a => f a | None => JNull end.

(** Modelled from the spec: the attribute set a [Cookie] serialises to
    (session/cookie.js is not among the sources). *)
Definition cookie_json (c : Cookie) : jsval :=
  JObj [("originalMaxAge", opt_json JNum (originalMaxAge c));
        ("expires", opt_json JNum (expires c));
        ("secure", JBool (secure c));
        ("httpOnly", JBool (httpOnly c));
        ("domain", opt_json JStr (domain c));
        ("path", JStr (path c));
        ("sameSite", opt_json JStr (sameSite c))].

(** The session as [JSON.stringify] sees it: its own enumerable properties.
    The replacer of [hash] drops the [cookie] property wherever it sits
    ([hash_ignores_cookie_property]), so its position is not recorded. *)
Definition session_obj (s : Session) : jsval :=
  JObj (("cookie", cookie_json (cookie s)) :: data s).

(** Modelled from the spec: [Session.prototype.resetMaxAge] of
    session/session.js, which is not among the sources: if
    [cookie.originalMaxAge] is set, [cookie.expires = now + originalMaxAge];
    otherwise [expires] is left as it is. *)
Definition resetMaxAge (now : Z) (s : Session) : Session :=
  match originalMaxAge (cookie s) with
  | Some ms => set_cookie (set_expires (Some (now + ms)%Z) (cookie s)) s
  | None => s
  end.

(** A record as the store returns it from [get]. *)
Record StoredSession : Type := {
  st_cookie : Cookie;
  st_data : list (string * jsval)
}.

Definition stored_obj (r : StoredSession) : jsval :=
  JObj (("cookie", cookie_json (st_cookie r)) :: st_data r).

(** *** Requests, store replies, events *)

Record Request : Type := {
  req_session : option Session;       (* [None]: [undefined] or [null] *)
  sessionID : option string;          (* [None]: [undefined] *)
  sessionStore : bool;                (* [req.sessionStore] has been set *)
  cookies_get : string -> option string;   (* [req.cookies.get(name)] *)
  pathname : string;       (* [parse(req.originalUrl || req.url).pathname] *)
  connection : option jsval;          (* [req.connection.encrypted] *)
  req_secure : jsval;                 (* [req.secure] *)
  x_forwarded_proto : option string   (* [req.headers['x-forwarded-proto']] *)
}.

Definition set_req_session (s : option Session) (r : Request) : Request :=
  {| req_session := s; sessionID := sessionID r;
     sessionStore := sessionStore r; cookies_get := cookies_get r;
     pathname := pathname r; connection := connection r;
     req_secure := req_secure r;
     x_forwarded_proto := x_forwarded_proto r |}.

Definition set_sessionID (i : option string) (r : Request) : Request :=
  {| req_session := req_session r; sessionID := i;
     sessionStore := sessionStore r; cookies_get := cookies_get r;
     pathname := pathname r; connection := connection r;
     req_secure := req_secure r;
     x_forwarded_proto := x_forwarded_proto r |}.

Definition set_sessionStore (r : Request) : Request :=
  {| req_session := req_session r; sessionID := sessionID r;
     sessionStore := true; cookies_get := cookies_get r;
     pathname := pathname r; connection := connection r;
     req_secure := req_secure r;
     x_forwarded_proto := x_forwarded_proto r |}.

(** The error a store hands to a callback. *)
Record StoreErr : Type := {
  code : option string;
  stack : string
}.

(** What [store.get] reports to its callback: an error, neither an error
    nor a record, or a record. *)
Inductive GetReply : Type :=
| GetError (err : StoreErr)
| GetNothing
| GetFound (sess : StoredSession).

(** When a store runs the callback of [destroy] or [set]: before the call
    returns (with the error, if any), or at some later turn. *)
Inductive CbTiming : Type :=
| CbSync (err : option StoreErr)
| CbLater.

(** What a call of (the original or the overridden) [res.end] returns. *)
Inductive Ret : Type :=
| RetFalse          (* the literal [false] *)
| RetUndefined      (* [ret] was never assigned *)
| RetOfWrite        (* whatever the original [res.write] returned *)
| RetOfEnd.         (* whatever the original [res.end] returned *)

(** The observable actions, in the order in which they happen. *)
Inductive Event : Type :=
| EvDebug (msg : string)                       (* [debug(msg)] *)
| EvConsoleError (stack : string)              (* [console.error(err.stack)] *)
| EvNext (err : option StoreErr)               (* [next()] / [next(err)] *)
| EvStoreGet (sid : option string)             (* [store.get(sid, cb)] *)
| EvStoreDestroy (sid : option string)         (* [store.destroy(sid, cb)] *)
| EvStoreSet (sid : option string) (sess : Session)  (* [store.set] *)
| EvSetCookie (name : string) (val : option string)  (* [res.cookies.set] *)
| EvWrite (chunk : string) (encoding : option string) (* original [write] *)
| EvEnd (chunk : option string) (encoding : option string). (* original [end] *)

(** The variables [ret], [sync], [chunk] and [encoding] of the one
    invocation of the overridden [res.end] that got past the guard, together
    with the message its store callback logs. *)
Record Frame : Type := {
  f_done : string;
  f_sync : bool;
  f_ret : Ret;
  f_chunk : string;
  f_encoding : option string
}.

(** One request in flight: the request object, whether the response
    headers have gone out, the variables the middleware closes over, and the
    trace so far. *)
Record World : Type := {
  req : Request;
  headersSent : bool;
  hooked : bool;          (* the header listener and [res.end] are installed *)
  cookieId : option string;
  originalHash : option Z;
  originalId : option string;
  ended : bool;
  frame : option Frame;
  trace : list Event
}.

Definition with_req (r : Request) (w : World) : World :=
  {| req := r; headersSent := headersSent w; hooked := hooked w;
     cookieId := cookieId w; originalHash := originalHash w;
     originalId := originalId w; ended := ended w; frame := frame w;
     trace := trace w |}.

Definition with_headersSent (b : bool) (w : World) : World :=
  {| req := req w; headersSent := b; hooked := hooked w;
     cookieId := cookieId w; originalHash := originalHash w;
     originalId := originalId w; ended := ended w; frame := frame w;
     trace := trace w |}.

Definition with_hooks (cid : option string) (w : World) : World :=
  {| req := req w; headersSent := headersSent w; hooked := true;
     cookieId := cid; originalHash := None; originalId := None;
     ended := false; frame := None; trace := trace w |}.

Definition with_original (h : option Z) (i : option string) (w : World)
  : World :=
  {| req := req w; headersSent := headersSent w; hooked := hooked w;
     cookieId := cookieId w; originalHash := h; originalId := i;
     ended := ended w; frame := frame w; trace := trace w |}.

Definition with_ended (b : bool) (w : World) : World :=
  {| req := req w; headersSent := headersSent w; hooked := hooked w;
     cookieId := cookieId w; originalHash := originalHash w;
     originalId := originalId w; ended := b; frame := frame w;
     trace := trace w |}.

Definition with_frame (f : option Frame) (w : World) : World :=
  {| req := req w; headersSent := headersSent w; hooked := hooked w;
     cookieId := cookieId w; originalHash := originalHash w;
     originalId := originalId w; ended := ended w; frame := f;
     trace := trace w |}.

Definition emit (e : Event) (w : World) : World :=
  {| req := req w; headersSent := headersSent w; hooked := hooked w;
     cookieId := cookieId w; originalHash := originalHash w;
     originalId := originalId w; ended := ended w; frame := frame w;
     trace := trace w ++ [e] |}.

(** *** [session(options)]: the options and their defaults *)

(** The [genid] option: absent, a function, or some other value. *)
Inductive GenidOption : Type :=
| GenidUndefined
| GenidFunction (f : Request -> string)
| GenidOther (v : jsval).

Record Options : Type := {
  o_name : option string;
  o_key : option string;
  o_cookie : option CookieOptions;
  o_proxy : jsval;
  o_rolling : jsval;
  o_resave : jsval;
  o_saveUninitialized : jsval;
  o_genid : GenidOption;
  o_unset : jsval
}.

(** The variables the returned middleware closes over. *)
Record Config : Type := {
  name : string;
  cookieOptions : CookieOptions;
  trustProxy : jsval;
  rollingSessions : jsval;
  resaveSession : jsval;
  saveUninitializedSession : jsval;
  generateId : Request -> string;
  unsetDestroy : bool
}.

Inductive SetupError : Type :=
| TypeError (msg : string).

Inductive StoreSignal : Type := Disconnect | Connect.

(** [store.on('disconnect', ...)] and [store.on('connect', ...)]: the new
    value of [storeReady]. *)
Definition on_store_signal (s : StoreSignal) (storeReady : bool) : bool :=
  match s with
  | Disconnect => false
  | Connect => true
  end.

Definition unset_message : string :=
  "unset option must be " ++ Json.quote "destroy" ++ " or "
  ++ Json.quote "keep".

(** [if (chunk === undefined) chunk = '']. *)
Definition chunk_or_empty (chunk : option string) : string :=
  match chunk with Some c => c | None => EmptyString end.

Definition resave_notice : string :=
  "undefined resave option; provide resave option".
Definition saveUninitialized_notice : string :=
  "undefined saveUninitialized option; provide saveUninitialized option".

Section WithEnvironment.

(** [generateSessionId]: [uid(24)], a fresh random identifier. *)
Variable generateSessionId : Request -> string.

(** The clock read by the cookie when its expiry is recomputed. *)
Variable now : Z.

(** [session(options)] up to the point where it returns the middleware: the
    configuration and the deprecation notices, or the [TypeError] thrown. *)
Definition session (o : Options) : SetupError + (Config * list string) :=
  let name := optstr_or (o_name o) (optstr_or (o_key o) "connect.sid") in
  let cookie :=
    match o_cookie o with Some c => c | None => no_cookie_options end in
  let trustProxy := o_proxy o in
  let rollingSessions := js_or (o_rolling o) (JBool false) in
  let generateId : option (Request -> string) :=
    match o_genid o with
    | GenidUndefined => Some generateSessionId
    | GenidFunction f => Some f
    | GenidOther v => if truthy v then None else Some generateSessionId
    end in
  match generateId with
  | None => inl (TypeError "genid option must be a function")
  | Some generateId =>
      let '(resaveSession, notes1) :=
        if is_undefined (o_resave o) then (JBool true, [resave_notice])
        else (o_resave o, []) in
      let '(saveUninitializedSession, notes2) :=
        if is_undefined (o_saveUninitialized o)
        then (JBool true, [saveUninitialized_notice])
        else (o_saveUninitialized o, []) in
      if truthy (o_unset o)
         && negb (strict_eq_str (o_unset o) "destroy")
         && negb (strict_eq_str (o_unset o) "keep")
      then inl (TypeError unset_message)
      else
        inr ({| name := name;
                cookieOptions := cookie;
                trustProxy := trustProxy;
                rollingSessions := rollingSessions;
                resaveSession := resaveSession;
                saveUninitializedSession := saveUninitializedSession;
                generateId := generateId;
                unsetDestroy := strict_eq_str (o_unset o) "destroy" |},
             (notes1 ++ notes2)%list)
  end.

(** *** Helpers at the bottom of index.js *)

(** [getcookie(req, name)]. *)
Definition getcookie (r : Request) (name : string) : option string :=
  cookies_get r name.

(** [req.connection && req.connection.encrypted], as a condition. *)
Definition encrypted (r : Request) : bool :=
  match connection r with
  | Some enc => truthy enc
  | None => false
  end.

(** [issecure(req, trustProxy)]. *)
Definition issecure (r : Request) (trustProxy : jsval) : bool :=
  if encrypted r then true
  else if strict_eq_bool trustProxy false then false
  else if negb (strict_eq_bool trustProxy true) then
    match req_secure r with
    | JBool secure => secure
    | _ => false
    end
  else
    let header := optstr_or (x_forwarded_proto r) EmptyString in
    let proto :=
      match index_of_char "," header with
      | Some index => trim (toLowerCase (substr0 index header))
      | None => trim (toLowerCase header)
      end in
    proto =? "https".

(** [setcookie(res, name, val, options)]: the call [res.cookies.set]. *)
Definition setcookie (name : string) (val : option string) (w : World)
  : World :=
  emit (EvSetCookie name val) w.

(** *** The functions the middleware defines per request *)

Section WithConfig.

Variable cfg : Config.

(** [store.generate(req)]: the id, then the session, then its cookie. *)
Definition store_generate (r : Request) : Request :=
  let r1 := set_sessionID (Some (generateId cfg r)) r in
  set_req_session
    (Some (new_Session (sessionID r1) (new_Cookie now (cookieOptions cfg))))
    r1.

(** [generate()]. *)
Definition generate (w : World) : World :=
  let r := store_generate (req w) in
  with_original
    (match req_session r with
     | Some s => hash (session_obj s)
     | None => None
     end)
    (sessionID r)
    (with_req r w).

(** [isModified(sess)].  [hash] of a session is always a number
    ([hash_object_defined]), so [None] on the right never occurs. *)
Definition isModified (w : World) (sess : Session) : bool :=
  optnum_neq (originalHash w) (hash (session_obj sess))
  || optstr_neq (originalId w) (id sess).

Definition jsval_of_optstr (o : option string) : jsval :=
  match o with Some s => JStr s | None => JUndefined end.

(** [shouldDestroy(req)]. *)
Definition shouldDestroy (w : World) : jsval :=
  js_and
    (js_and (jsval_of_optstr (sessionID (req w))) (JBool (unsetDestroy cfg)))
    (JBool (match req_session (req w) with None => true | Some _ => false end)).

(** [shouldSave(req)], for a request whose [req.session] is [sess]. *)
Definition shouldSave (w : World) (sess : Session) : jsval :=
  if optstr_neq (cookieId w) (sessionID (req w))
  then js_or (saveUninitializedSession cfg) (JBool (isModified w sess))
  else js_or (resaveSession cfg) (JBool (isModified w sess)).

(** [shouldSetCookie(req)], for a request whose [req.session] is [sess]. *)
Definition shouldSetCookie (w : World) (sess : Session) : jsval :=
  if truthy (rollingSessions cfg) then JBool true
  else if optstr_neq (cookieId w) (sessionID (req w))
  then js_or (saveUninitializedSession cfg) (JBool (isModified w sess))
  else
    JBool (match expires (cookie sess) with Some _ => true | None => false end
           && isModified w sess).

(** The listener registered with [onHeaders(res, ...)]. *)
Definition on_headers (w : World) : World :=
  match req_session (req w) with
  | None => emit (EvDebug "no session") w
  | Some sess =>
      let cookie := cookie sess in
      if secure cookie && negb (issecure (req w) (trustProxy cfg))
      then emit (EvDebug "not secured") w
      else if negb (truthy (shouldSetCookie w sess)) then w
      else setcookie (name cfg) (sessionID (req w)) w
  end.

(** The response object underneath the middleware: the first write or end
    sends the headers, and the header listener runs just before. *)
Definition send_headers (w : World) : World :=
  if headersSent w then w
  else with_headersSent true (if hooked w then on_headers w else w).

(** The original [res.write(chunk, encoding)]. *)
Definition res_write (chunk : string) (encoding : option string) (w : World)
  : World :=
  emit (EvWrite chunk encoding) (send_headers w).

(** The original [res.end], called as [end.call(res, chunk, encoding)]. *)
Definition end_call (chunk : option string) (encoding : option string)
  (w : World) : World :=
  emit (EvEnd chunk encoding) (send_headers w).

(** The callback handed to [store.destroy] and to [req.session.save]. *)
Definition store_callback (err : option StoreErr) (w : World) : World :=
  match frame w with
  | None => w
  | Some f =>
      let w1 := match err with
                | Some e => emit (EvConsoleError (stack e)) w
                | None => w
                end in
      let w2 := emit (EvDebug (f_done f)) w1 in
      if f_sync f then
        let w3 := end_call (Some (f_chunk f)) (f_encoding f) w2 in
        with_frame
          (Some {| f_done := f_done f; f_sync := false; f_ret := RetOfEnd;
                   f_chunk := f_chunk f; f_encoding := f_encoding f |}) w3
      else end_call None None w2
  end.

(** The tail both commit branches of the overridden [res.end] share: the
    store has been called; if its callback has not run yet, the chunk is
    written; [ret] is returned. *)
Definition after_store_call (t : CbTiming) (w : World) : Ret * World :=
  let w1 := match t with
            | CbSync err => store_callback err w
            | CbLater => w
            end in
  match frame w1 with
  | None => (RetUndefined, w1)
  | Some f =>
      if f_sync f then
        let w2 := res_write (f_chunk f) (f_encoding f) w1 in
        (RetOfWrite,
         with_frame
           (Some {| f_done := f_done f; f_sync := false; f_ret := RetOfWrite;
                    f_chunk := f_chunk f; f_encoding := f_encoding f |}) w2)
      else (f_ret f, w1)
  end.

Definition new_frame (done : string) (chunk : string)
  (encoding : option string) : Frame :=
  {| f_done := done; f_sync := true; f_ret := RetUndefined;
     f_chunk := chunk; f_encoding := encoding |}.

(** Modelled from the spec: [Session.prototype.save(callback)] of
    session/session.js, which is not among the sources: the session is
    handed to the store's [set] under its id. *)
Definition session_save (sess : Session) (w : World) : World :=
  emit (EvStoreSet (id sess) sess) w.

(** The overridden [res.end(chunk, encoding)].  [t] tells when the store
    runs the callback, should this call reach the store. *)
Definition res_end (t : CbTiming) (chunk : option string)
  (encoding : option string) (w : World) : Ret * World :=
  if ended w then (RetFalse, w)
  else
    let chunk := chunk_or_empty chunk in
    let w := with_ended true w in
    if truthy (shouldDestroy w) then
      let w := emit (EvDebug "destroying") w in
      let w := with_frame (Some (new_frame "destroyed" chunk encoding)) w in
      let w := emit (EvStoreDestroy (sessionID (req w))) w in
      after_store_call t w
    else
      match req_session (req w) with
      | None =>
          let w := emit (EvDebug "no session") w in
          (RetOfEnd, end_call (Some chunk) encoding w)
      | Some sess =>
          let sess := resetMaxAge now sess in
          let w := with_req (set_req_session (Some sess) (req w)) w in
          if truthy (shouldSave w sess) then
            let w := emit (EvDebug "saving") w in
            let w := with_frame (Some (new_frame "saved" chunk encoding)) w in
            let w := session_save sess w in
            after_store_call t w
          else (RetOfEnd, end_call (Some chunk) encoding w)
      end.

(** Modelled from the spec: [store.createSession(req, sess)] of
    session/store.js, which is not among the sources: the loaded record is
    attached as a session under the id of the request. *)
Definition createSession (r : Request) (sess : StoredSession) : Request :=
  set_req_session
    (Some {| id := sessionID r; cookie := st_cookie sess;
             data := st_data sess |}) r.

Definition next (err : option StoreErr) (w : World) : World :=
  emit (EvNext err) w.

(** The callback handed to [store.get]. *)
Definition store_get_callback (reply : GetReply) (w : World) : World :=
  match reply with
  | GetError err =>
      let w := emit (EvDebug "error %j") w in
      if match code err with Some c => "ENOENT" =? c | None => false end
      then next None (generate w)
      else next (Some err) w
  | GetNothing =>
      let w := emit (EvDebug "no session found") w in
      next None (generate w)
  | GetFound sess =>
      let w := emit (EvDebug "session found") w in
      let w := with_req (createSession (req w) sess) w in
      let w := with_original (hash (stored_obj sess)) (sessionID (req w)) w in
      next None w
  end.

(** The middleware [session(req, res, next)].  [reply] is what the store
    hands to the callback of [get] if it runs it before [get] returns;
    otherwise the callback runs later, as [store_get_callback]. *)
Definition session_middleware (storeReady : bool) (reply : option GetReply)
  (w : World) : World :=
  match req_session (req w) with
  | Some _ => next None w
  | None =>
      if negb storeReady
      then next None (emit (EvDebug "store is disconnected") w)
      else
        let originalPath := pathname (req w) in
        if negb (starts_with (optstr_or (co_path (cookieOptions cfg)) "/")
                   originalPath)
        then next None w
        else
          let r := set_sessionStore (req w) in
          let cid := getcookie r (name cfg) in
          let w := with_hooks cid (with_req (set_sessionID cid r) w) in
          if negb (optstr_truthy (sessionID (req w))) then
            let w := emit (EvDebug "no SID sent, generating session") w in
            next None (generate w)
          else
            let w := emit (EvDebug "fetching %s") w in
            let w := emit (EvStoreGet (sessionID (req w))) w in
            match reply with
            | Some r => store_get_callback r w
            | None => w
            end
  end.

End WithConfig.

End WithEnvironment.

(** *** Reading a trace *)

Definition is_next (e : Event) : bool :=
  match e with EvNext _ => true | _ => false end.
Definition is_store_set (e : Event) : bool :=
  match e with EvStoreSet _ _ => true | _ => false end.
Definition is_store_destroy (e : Event) : bool :=
  match e with EvStoreDestroy _ => true | _ => false end.
Definition is_set_cookie (e : Event) : bool :=
  match e with EvSetCookie _ _ => true | _ => false end.
Definition is_end (e : Event) : bool :=
  match e with EvEnd _ _ => true | _ => false end.

(** A reply of [store.get] that the middleware takes for a miss: neither
    an error nor a record, or an error whose code is [ENOENT]. *)
Definition is_miss (reply : GetReply) : bool :=
  match reply with
  | GetError err =>
      match code err with Some c => "ENOENT" =? c | None => false end
  | GetNothing => true
  | GetFound _ => false
  end.

(** The session [generate()] attaches when it runs on the request [r]. *)
Definition fresh_session (now : Z) (cfg : Config) (r : Request) : Session :=
  new_Session (Some (generateId cfg r)) (new_Cookie now (cookieOptions cfg)).

(** The events of one kind, in order. *)
Definition only (kind : Event -> bool) (tr : list Event) : list Event :=
  filter kind tr.

(** What the header listener adds to the trace when it runs in [w]. *)
Definition listener_events (cfg : Config) (w : World) : list Event :=
  match req_session (req w) with
  | None => [EvDebug "no session"]
  | Some sess =>
      if secure (cookie sess) && negb (issecure (req w) (trustProxy cfg))
      then [EvDebug "not secured"]
      else if truthy (shouldSetCookie cfg w sess)
      then [EvSetCookie (name cfg) (sessionID (req w))]
      else []
  end.

(** What sending the headers adds to the trace in [w]: nothing if they
    have gone out already. *)
Definition header_events (cfg : Config) (w : World) : list Event :=
  if headersSent w then []
  else if hooked w then listener_events cfg w
  else [].

(** What the store callback logs for its argument. *)
Definition error_events (err : option StoreErr) : list Event :=
  match err with
  | Some e => [EvConsoleError (stack e)]
  | None => []
  end.

(** What follows the store call inside the overridden [res.end]: the whole
    callback if the store runs it at once, the write of the chunk if not. *)
Definition commit_events (cfg : Config) (done : string) (t : CbTiming)
  (chunk : string) (encoding : option string) (w : World) : list Event :=
  match t with
  | CbSync err =>
      error_events err ++ [EvDebug done] ++ header_events cfg w
      ++ [EvEnd (Some chunk) encoding]
  | CbLater => header_events cfg w ++ [EvWrite chunk encoding]
  end.

(** The world once [req.session.resetMaxAge()] has run on the attached
    session [sess]. *)
Definition touched (now : Z) (w : World) (sess : Session) : World :=
  with_req (set_req_session (Some (resetMaxAge now sess)) (req w)) w.

(** The frame the store callback finds once the overridden [res.end] has
    returned. *)
Definition settled_frame (done : string) (t : CbTiming) (chunk : string)
  (encoding : option string) : Frame :=
  {| f_done := done; f_sync := false;
     f_ret := match t with CbSync _ => RetOfEnd | CbLater => RetOfWrite end;
     f_chunk := chunk; f_encoding := encoding |}.

(** Kinds of events that neither the header listener nor the logging
    produce. *)
Definition silent_in_headers (kind : Event -> bool) : Prop :=
  (forall m, kind (EvDebug m) = false)
  /\ (forall n v, kind (EvSetCookie n v) = false).

(** Two worlds that the header listener cannot tell apart. *)
Definition same_view (w1 w2 : World) : Prop :=
  req w1 = req w2 /\ headersSent w1 = headersSent w2
  /\ hooked w1 = hooked w2 /\ cookieId w1 = cookieId w2
  /\ originalHash w1 = originalHash w2 /\ originalId w1 = originalId w2.

(** *** Objects as mappings *)

(** [obj[key]] on the property list of an object. *)
Fixpoint get_property (key : string) (props : list (string * jsval))
  : option jsval :=
  match props with
  | [] => None
  | (k, v) :: rest => if k =? key then Some v else get_property key rest
  end.

Definition keys (props : list (string * jsval)) : list string :=
  map fst props.

(** Two property lists that hold the same value under every key. *)
Definition same_mapping (o1 o2 : list (string * jsval)) : Prop :=
  forall key, get_property key o1 = get_property key o2.

(** The properties other than [cookie], in order. *)
Definition without_cookie (props : list (string * jsval))
  : list (string * jsval) :=
  filter (fun ke => negb ("cookie" =? fst ke)) props.

(** *** Concrete sessions and requests, used as examples below *)

Definition plain_cookie : Cookie := new_Cookie 0 no_cookie_options.

Definition secure_cookie : Cookie :=
  {| path := "/"; httpOnly := true; secure := true; domain := None;
     sameSite := None; originalMaxAge := Some 60000%Z;
     expires := Some 60000%Z |}.

(** Two sessions with the same id and cookie whose data hold the same
    values under the same keys, inserted in opposite orders. *)
Definition session_ab : Session :=
  {| id := Some "A"; cookie := plain_cookie;
     data := [("a", JNum 1); ("b", JNum 2)] |}.

Definition session_ba : Session :=
  {| id := Some "A"; cookie := plain_cookie;
     data := [("b", JNum 2); ("a", JNum 1)] |}.

(** The same data as [session_ab] under another cookie. *)
Definition session_ab_secure : Session :=
  {| id := Some "A"; cookie := secure_cookie;
     data := [("a", JNum 1); ("b", JNum 2)] |}.

(** The generator used in the examples. *)
Definition example_genid (r : Request) : string := "generated".

(** Options that leave everything out except [proxy], [rolling], [unset]. *)
Definition options_with (proxy rolling unset : jsval) : Options :=
  {| o_name := None; o_key := None; o_cookie := None; o_proxy := proxy;
     o_rolling := rolling; o_resave := JUndefined;
     o_saveUninitialized := JUndefined; o_genid := GenidUndefined;
     o_unset := unset |}.

(** The configuration [session] derives from [options_with]. *)
Definition config_with (proxy rolling unset : jsval) : Config :=
  {| name := "connect.sid"; cookieOptions := no_cookie_options;
     trustProxy := proxy; rollingSessions := js_or rolling (JBool false);
     resaveSession := JBool true; saveUninitializedSession := JBool true;
     generateId := example_genid;
     unsetDestroy := strict_eq_str unset "destroy" |}.

(** A configuration with [resave: false, saveUninitialized: false]. *)
Definition config_lazy : Config :=
  {| name := "connect.sid"; cookieOptions := no_cookie_options;
     trustProxy := JUndefined; rollingSessions := JBool false;
     resaveSession := JBool false; saveUninitializedSession := JBool false;
     generateId := example_genid; unsetDestroy := false |}.

(** A backend failure. *)
Definition connection_lost : StoreErr :=
  {| code := Some "ECONNRESET"; stack := "Error: connection lost" |}.

(** A request that presents the cookie value [sid] under every name. *)
Definition request_with (sid : option string) (s : option Session)
  : Request :=
  {| req_session := s; sessionID := sid; sessionStore := true;
     cookies_get := fun _ => sid; pathname := "/";
     connection := None; req_secure := JUndefined;
     x_forwarded_proto := None |}.

(** The world of a request whose session [s] was loaded, under the id [sid]
    the request presented, with the snapshots taken from [s0]. *)
Definition world_of (sid : option string) (s0 : Session)
  (s : option Session) : World :=
  {| req := request_with sid s; headersSent := false; hooked := true;
     cookieId := sid; originalHash := hash (session_obj s0);
     originalId := id s0; ended := false; frame := None; trace := [] |}.

(** A request over a plain connection that claims [https] in its
    forwarded-protocol header, with a secure-cookie session attached. *)
Definition world_forwarded_https : World :=
  {| req := {| req_session := Some session_ab_secure;
               sessionID := Some "A"; sessionStore := true;
               cookies_get := fun _ => Some "A"; pathname := "/";
               connection := Some JUndefined; req_secure := JUndefined;
               x_forwarded_proto := Some "HTTPS , http" |};
     headersSent := false; hooked := true; cookieId := Some "A";
     originalHash := hash (session_obj session_ab_secure);
     originalId := Some "A"; ended := false; frame := None; trace := [] |}.

(** A miss reported as an error. *)
Definition no_entry : StoreErr :=
  {| code := Some "ENOENT"; stack := "Error: ENOENT" |}.

(** The frame and world in which the callback of a save runs later. *)
Definition world_saving : World :=
  with_frame (Some (settled_frame "saved" CbLater EmptyString None))
    (with_headersSent true
       (with_ended true (world_of (Some "A") session_ab (Some session_ab)))).

(** *** Further notions used by the properties beyond the claims *)

Definition is_store_get (e : Event) : bool :=
  match e with EvStoreGet _ => true | _ => false end.

(** The elements of an array as [serialize_property] writes them, the first
    one visited under the index [i]. *)
Fixpoint array_elements (i : nat) (elems : list jsval) : list string :=
  match elems with
  | [] => []
  | e :: rest =>
      match Json.serialize_property (Json.index_key i) e with
      | Some s => s
      | None => "null"
      end :: array_elements (S i) rest
  end.

(** The value with every property named [cookie] removed, at every depth. *)
Fixpoint strip_cookie (v : jsval) : jsval :=
  match v with
  | JArr elems => JArr (map strip_cookie elems)
  | JObj props =>
      JObj ((fix go (l : list (string * jsval)) : list (string * jsval) :=
               match l with
               | [] => []
               | (k, e) :: rest =>
                   if "cookie" =? k then go rest
                   else (k, strip_cookie e) :: go rest
               end) props)
  | _ => v
  end.

(** The same list of properties, stripped. *)
Fixpoint strip_props (l : list (string * jsval)) : list (string * jsval) :=
  match l with
  | [] => []
  | (k, e) :: rest =>
      if "cookie" =? k then strip_props rest
      else (k, strip_cookie e) :: strip_props rest
  end.

(** The [genid] option is a truthy value that is not a function. *)
Definition bad_genid (o : Options) : bool :=
  match o_genid o with
  | GenidOther v => truthy v
  | _ => false
  end.

(** The [unset] option is truthy and neither ['destroy'] nor ['keep']. *)
Definition bad_unset (o : Options) : bool :=
  truthy (o_unset o)
  && negb (strict_eq_str (o_unset o) "destroy")
  && negb (strict_eq_str (o_unset o) "keep").

(** [storeReady] after the store has emitted the given signals, in order,
    since [session(options)] returned. *)
Definition storeReady_after (signals : list StoreSignal) : bool :=
  fold_left (fun ready s => on_store_signal s ready) signals true.

(** The path of the request lies under the path of the cookie. *)
Definition in_scope (cfg : Config) (r : Request) : bool :=
  starts_with (optstr_or (co_path (cookieOptions cfg)) "/") (pathname r).

(** The world once the middleware has exposed the store, read the cookie
    and installed the header listener and the overridden [res.end]. *)
Definition entered (cfg : Config) (w : World) : World :=
  let r := set_sessionStore (req w) in
  let cid := getcookie r (name cfg) in
  with_hooks cid (with_req (set_sessionID cid r) w).

(** The overridden [res.end], followed by the store callback if the store
    did not run it before returning. *)
Definition finalize (now : Z) (cfg : Config) (t : CbTiming)
  (err : option StoreErr) (chunk encoding : option string) (w : World)
  : World :=
  let w1 := snd (res_end now cfg t chunk encoding w) in
  match t with
  | CbSync _ => w1
  | CbLater => store_callback cfg err w1
  end.

(** What follows the store call up to the end of the callback: as
    [commit_events], then the callback if it runs later. *)
Definition settle_events (cfg : Config) (done : string) (t : CbTiming)
  (err : option StoreErr) (chunk : string) (encoding : option string)
  (w : World) : list Event :=
  match t with
  | CbSync _ => commit_events cfg done t chunk encoding w
  | CbLater =>
      commit_events cfg done t chunk encoding w
      ++ error_events err ++ [EvDebug done; EvEnd None None]
  end.

(** What [finalize] adds to the trace of a world in which the overridden
    [res.end] has not run yet. *)
Definition finalize_events (now : Z) (cfg : Config) (t : CbTiming)
  (err : option StoreErr) (chunk encoding : option string) (w : World)
  : list Event :=
  if truthy (shouldDestroy cfg w) then
    [EvDebug "destroying"; EvStoreDestroy (sessionID (req w))]
    ++ settle_events cfg "destroyed" t err (chunk_or_empty chunk) encoding w
  else
    match req_session (req w) with
    | None =>
        [EvDebug "no session"] ++ header_events cfg w
        ++ [EvEnd (Some (chunk_or_empty chunk)) encoding]
    | Some sess =>
        if truthy (shouldSave cfg w sess) then
          [EvDebug "saving"; EvStoreSet (id sess) (resetMaxAge now sess)]
          ++ settle_events cfg "saved" t err (chunk_or_empty chunk) encoding
               (touched now w sess)
        else
          header_events cfg (touched now w sess)
          ++ [EvEnd (Some (chunk_or_empty chunk)) encoding]
    end.

(** The body the original [write] and [end] have been handed so far. *)
Fixpoint body (tr : list Event) : string :=
  match tr with
  | [] => EmptyString
  | EvWrite chunk _ :: rest => chunk ++ body rest
  | EvEnd (Some chunk) _ :: rest => chunk ++ body rest
  | _ :: rest => body rest
  end.

(** The cookie the header listener sets in [w], if any. *)
Definition cookie_events (cfg : Config) (w : World) : list Event :=
  if headersSent w then []
  else if hooked w then
    match req_session (req w) with
    | None => []
    | Some sess =>
        if secure (cookie sess) && negb (issecure (req w) (trustProxy cfg))
        then []
        else if truthy (shouldSetCookie cfg w sess)
        then [EvSetCookie (name cfg) (sessionID (req w))]
        else []
    end
  else [].

(** The request with another [x-forwarded-proto] header. *)
Definition with_forwarded (h : option string) (r : Request) : Request :=
  {| req_session := req_session r; sessionID := sessionID r;
     sessionStore := sessionStore r; cookies_get := cookies_get r;
     pathname := pathname r; connection := connection r;
     req_secure := req_secure r; x_forwarded_proto := h |}.

(** A request as it reaches the middleware: no session yet, the cookie
    [sid] under every name. *)
Definition incoming (sid : option string) : World :=
  {| req := {| req_session := None; sessionID := None; sessionStore := false;
               cookies_get := fun _ => sid; pathname := "/account";
               connection := None; req_secure := JUndefined;
               x_forwarded_proto := None |};
     headersSent := false; hooked := false; cookieId := None;
     originalHash := None; originalId := None; ended := false;
     frame := None; trace := [] |}.

(** A stored record: the data of [session_ab] under a plain cookie. *)
Definition stored_ab : StoredSession :=
  {| st_cookie := plain_cookie; st_data := [("a", JNum 1); ("b", JNum 2)] |}.

(** Options with an [unset] policy and a cookie name, everything else
    explicit. *)
Definition options_explicit (nm : option string) (unset : jsval) : Options :=
  {| o_name := nm; o_key := Some "sid"; o_cookie := None;
     o_proxy := JUndefined; o_rolling := JBool false; o_resave := JNull;
     o_saveUninitialized := JBool false;
     o_genid := GenidFunction example_genid; o_unset := unset |}.

(* ------------------------------------------------------------------ *)
(** ** Properties of the serialisation and of [hash] *)

#[local] Arguments String.eqb : simpl never.

Example crc32_check_value : Crc32.unsigned "123456789" = 0xCBF43926%Z.
Proof. vm_compute. reflexivity. Qed.

Lemma serialize_property_cookie (v : jsval) :
  Json.serialize_property "cookie" v = None.
Proof. destruct v; reflexivity. Qed.

(** The structural serialiser is [JSON.stringify] run on what the replacer
    returns. *)
Lemma serialize_property_replacer (key : string) (val : jsval) :
  Json.serialize_property key val = Json.stringify (Json.replacer key val).
Proof.
  unfold Json.stringify, Json.replacer.
  destruct ("cookie" =? key) eqn:E; simpl.
  - apply String.eqb_eq in E. subst key. apply serialize_property_cookie.
  - destruct val; simpl; rewrite E; reflexivity.
Qed.

Lemma stringify_object (props : list (string * jsval)) :
  Json.stringify (JObj props) =
  Some ("{"
        ++ Json.join "," (Json.members (Json.serialize_props props))
        ++ "}").
Proof.
  unfold Json.stringify. simpl. do 4 f_equal.
  induction props as [|[k e] rest IH]; simpl; [reflexivity|].
  now rewrite IH.
Qed.

Lemma members_without_cookie (props : list (string * jsval)) :
  Json.members (Json.serialize_props props) =
  Json.members (Json.serialize_props (without_cookie props)).
Proof.
  induction props as [|[k e] rest IH]; simpl; [reflexivity|].
  destruct ("cookie" =? k) eqn:E; simpl.
  - apply String.eqb_eq in E. subst k.
    rewrite serialize_property_cookie. exact IH.
  - destruct (Json.serialize_property k e); simpl; now rewrite IH.
Qed.

(** [hash] of an object is determined by its properties other than
    [cookie]. *)
Lemma hash_ignores_cookie_property (props : list (string * jsval)) :
  hash (JObj props) = hash (JObj (without_cookie props)).
Proof.
  unfold hash. rewrite !stringify_object.
  now rewrite members_without_cookie.
Qed.

(** [hash] of an object never raises. *)
Lemma hash_object_defined (props : list (string * jsval)) :
  exists h, hash (JObj props) = Some h.
Proof. unfold hash. rewrite stringify_object. simpl. eauto. Qed.

Lemma get_property_absent (key : string) (props : list (string * jsval)) :
  ~ In key (keys props) -> get_property key props = None.
Proof.
  induction props as [|[k v] rest IH]; simpl; intros H; [reflexivity|].
  destruct (k =? key) eqn:E.
  - apply String.eqb_eq in E. tauto.
  - apply IH. tauto.
Qed.

(** With the keys in the same order, equal mappings are equal lists. *)
Lemma same_mapping_same_order (o1 o2 : list (string * jsval)) :
  NoDup (keys o1) -> keys o1 = keys o2 -> same_mapping o1 o2 -> o1 = o2.
Proof.
  revert o2.
  induction o1 as [|[k1 v1] r1 IH]; intros [|[k2 v2] r2] Hnd Hk Hm;
    simpl in *; try discriminate; [reflexivity|].
  injection Hk as Hk1 Hk2. subst k2.
  inversion Hnd as [|? ? Hnotin Hnd']; subst.
  assert (Hv : v1 = v2).
  { specialize (Hm k1). simpl in Hm. rewrite String.eqb_refl in Hm.
    congruence. }
  subst v2. f_equal.
  apply IH; auto.
  intros key. destruct (k1 =? key) eqn:E.
  - apply String.eqb_eq in E. subst key.
    rewrite !get_property_absent; auto. unfold keys in *. now rewrite <- Hk2.
  - specialize (Hm key). simpl in Hm. now rewrite E in Hm.
Qed.

(** C9: two session objects whose properties other than [cookie] are the
    same (the [cookie] property may differ in value, in position, or be
    absent on one side) have the same fingerprint; hence for two sessions
    with the same id that are such objects, [isModified] gives the same
    answer: a change confined to the cookie does not make a session
    modified. *)
Theorem C9_fingerprint_ignores_cookie (o1 o2 : list (string * jsval)) :
  without_cookie o1 = without_cookie o2 ->
  hash (JObj o1) = hash (JObj o2) /\
  forall (w : World) (s1 s2 : Session),
    session_obj s1 = JObj o1 -> session_obj s2 = JObj o2 ->
    id s1 = id s2 ->
    isModified w s1 = isModified w s2.
Proof.
  intros H.
  assert (Hh : hash (JObj o1) = hash (JObj o2)).
  { rewrite (hash_ignores_cookie_property o1),
      (hash_ignores_cookie_property o2). now rewrite H. }
  split; [exact Hh|].
  intros w s1 s2 E1 E2 Eid. unfold isModified.
  now rewrite E1, E2, Hh, Eid.
Qed.

Lemma C9_witness :
  without_cookie [("cookie", JNum 1); ("user", JStr "alice")] =
  without_cookie [("user", JStr "alice"); ("cookie", cookie_json secure_cookie)]
  /\ hash (JObj [("cookie", JNum 1); ("user", JStr "alice")]) =
     hash (JObj [("user", JStr "alice"); ("cookie", cookie_json secure_cookie)]).
Proof.
  split; [reflexivity|].
  apply (C9_fingerprint_ignores_cookie
           [("cookie", JNum 1); ("user", JStr "alice")]
           [("user", JStr "alice"); ("cookie", cookie_json secure_cookie)]).
  reflexivity.
Defined.

(** C3, as the code has it: the fingerprint is taken over the
    serialisation of the properties in their enumeration order.  Two
    sessions whose data are equal as mappings and list their keys in the
    same order have the same fingerprint. *)
Theorem C3_same_key_order_same_fingerprint (s1 s2 : Session) :
  NoDup (keys (data s1)) ->
  keys (data s1) = keys (data s2) ->
  same_mapping (data s1) (data s2) ->
  hash (session_obj s1) = hash (session_obj s2).
Proof.
  intros Hnd Hk Hm.
  pose proof (same_mapping_same_order _ _ Hnd Hk Hm) as E.
  unfold session_obj.
  rewrite (hash_ignores_cookie_property (_ :: data s1)),
    (hash_ignores_cookie_property (_ :: data s2)).
  simpl. now rewrite E.
Qed.

Lemma C3_witness :
  NoDup (keys (data session_ab))
  /\ keys (data session_ab) = keys (data session_ab_secure)
  /\ same_mapping (data session_ab) (data session_ab_secure)
  /\ hash (session_obj session_ab) = hash (session_obj session_ab_secure).
Proof.
  assert (Hnd : NoDup (keys (data session_ab))).
  { simpl. repeat constructor; simpl; intuition discriminate. }
  assert (Hm : same_mapping (data session_ab) (data session_ab_secure)).
  { intros key. reflexivity. }
  split; [exact Hnd|]. split; [reflexivity|]. split; [exact Hm|].
  exact (C3_same_key_order_same_fingerprint session_ab session_ab_secure
           Hnd eq_refl Hm).
Defined.

(** C3 fails as stated: [session_ab] and [session_ba] hold the same values
    under the same keys, in different orders, and their fingerprints
    differ; a request that loaded the one and ends with the other counts as
    modified. *)
Lemma C3_key_order_changes_fingerprint :
  same_mapping (data session_ab) (data session_ba)
  /\ hash (session_obj session_ab) <> hash (session_obj session_ba)
  /\ isModified (world_of (Some "A") session_ab (Some session_ba)) session_ba
     = true.
Proof.
  split; [|split].
  - intros key. simpl.
    destruct ("a" =? key) eqn:Ea, ("b" =? key) eqn:Eb; try reflexivity.
    apply String.eqb_eq in Ea, Eb. subst key. discriminate.
  - vm_compute. discriminate.
  - vm_compute. reflexivity.
Qed.

(* ------------------------------------------------------------------ *)
(** ** Properties of the option defaulting *)

(** What a successful [session(options)] leaves in the closure. *)
Lemma session_config (gsid : Request -> string) (o : Options) (cfg : Config)
  (notes : list string) :
  session gsid o = inr (cfg, notes) ->
  trustProxy cfg = o_proxy o
  /\ rollingSessions cfg = js_or (o_rolling o) (JBool false)
  /\ resaveSession cfg =
       (if is_undefined (o_resave o) then JBool true else o_resave o)
  /\ saveUninitializedSession cfg =
       (if is_undefined (o_saveUninitialized o) then JBool true
        else o_saveUninitialized o)
  /\ unsetDestroy cfg = strict_eq_str (o_unset o) "destroy".
Proof.
  unfold session. intros H.
  destruct (match o_genid o with
            | GenidUndefined => Some gsid
            | GenidFunction f => Some f
            | GenidOther v => if truthy v then None else Some gsid
            end) as [g|]; [|discriminate].
  destruct (is_undefined (o_resave o));
    destruct (is_undefined (o_saveUninitialized o));
    destruct (truthy (o_unset o) && negb (strict_eq_str (o_unset o) "destroy")
              && negb (strict_eq_str (o_unset o) "keep"));
    try discriminate; injection H as <- _; simpl; repeat split.
Qed.

(* ------------------------------------------------------------------ *)
(** ** Properties of the per-request decisions *)

Lemma truthy_js_or_bool (a : jsval) (b : bool) :
  truthy (js_or a (JBool b)) = truthy a || b.
Proof. unfold js_or. destruct (truthy a) eqn:E; simpl; auto. Qed.

Lemma truthy_js_and (a b : jsval) :
  truthy (js_and a b) = truthy a && truthy b.
Proof. unfold js_and. destruct (truthy a) eqn:E; simpl; auto. Qed.

Lemma shouldDestroy_truthy (cfg : Config) (w : World) :
  truthy (shouldDestroy cfg w) =
  optstr_truthy (sessionID (req w)) && unsetDestroy cfg
  && match req_session (req w) with None => true | Some _ => false end.
Proof.
  unfold shouldDestroy. rewrite !truthy_js_and. simpl.
  now destruct (sessionID (req w)).
Qed.

(** With a session attached, nothing is destroyed. *)
Lemma shouldDestroy_attached (cfg : Config) (w : World) (sess : Session) :
  req_session (req w) = Some sess -> truthy (shouldDestroy cfg w) = false.
Proof.
  intros H. rewrite shouldDestroy_truthy, H.
  now rewrite andb_false_r.
Qed.

Lemma optstr_neq_false (a b : option string) :
  optstr_neq a b = false <-> a = b.
Proof.
  destruct a as [x|], b as [y|]; simpl; try (split; congruence).
  rewrite negb_false_iff, String.eqb_eq. split; congruence.
Qed.

Lemma optnum_neq_false (a b : option Z) :
  optnum_neq a b = false <-> a = b.
Proof.
  destruct a as [x|], b as [y|]; simpl; try (split; congruence).
  rewrite negb_false_iff, Z.eqb_eq. split; congruence.
Qed.

Lemma optstr_neq_true (a b : option string) :
  optstr_neq a b = true <-> a <> b.
Proof.
  rewrite <- optstr_neq_false. destruct (optstr_neq a b); split; congruence.
Qed.

Lemma optnum_neq_true (a b : option Z) :
  optnum_neq a b = true <-> a <> b.
Proof.
  rewrite <- optnum_neq_false. destruct (optnum_neq a b); split; congruence.
Qed.

(** [isModified] says that the fingerprint or the id left its snapshot. *)
Lemma isModified_spec (w : World) (sess : Session) :
  isModified w sess = true <->
  originalHash w <> hash (session_obj sess) \/ originalId w <> id sess.
Proof.
  unfold isModified.
  rewrite orb_true_iff, optnum_neq_true, optstr_neq_true. tauto.
Qed.

(** Recomputing the expiry touches the cookie only. *)
Lemma resetMaxAge_id (now : Z) (s : Session) : id (resetMaxAge now s) = id s.
Proof.
  unfold resetMaxAge. destruct (originalMaxAge (cookie s)); reflexivity.
Qed.

Lemma resetMaxAge_data (now : Z) (s : Session) :
  data (resetMaxAge now s) = data s.
Proof.
  unfold resetMaxAge. destruct (originalMaxAge (cookie s)); reflexivity.
Qed.

Lemma resetMaxAge_secure (now : Z) (s : Session) :
  secure (cookie (resetMaxAge now s)) = secure (cookie s).
Proof.
  unfold resetMaxAge. destruct (originalMaxAge (cookie s)); reflexivity.
Qed.

Lemma hash_resetMaxAge (now : Z) (s : Session) :
  hash (session_obj (resetMaxAge now s)) = hash (session_obj s).
Proof.
  unfold session_obj.
  rewrite (hash_ignores_cookie_property (_ :: data (resetMaxAge now s))),
    (hash_ignores_cookie_property (_ :: data s)).
  simpl. now rewrite resetMaxAge_data.
Qed.

(** *** The overridden [res.end] *)

Ltac unfold_world :=
  unfold after_store_call, store_callback, end_call, res_write, send_headers,
    session_save, setcookie, next, new_frame, emit, with_frame, with_ended,
    with_req, with_headersSent, with_original, with_hooks in *;
  simpl in *.

(** The header listener changes nothing but the trace. *)
Lemma on_headers_fields (cfg : Config) (w : World) :
  req (on_headers cfg w) = req w
  /\ headersSent (on_headers cfg w) = headersSent w
  /\ hooked (on_headers cfg w) = hooked w
  /\ cookieId (on_headers cfg w) = cookieId w
  /\ originalHash (on_headers cfg w) = originalHash w
  /\ originalId (on_headers cfg w) = originalId w
  /\ ended (on_headers cfg w) = ended w
  /\ frame (on_headers cfg w) = frame w.
Proof.
  unfold on_headers.
  destruct (req_session (req w)) as [sess|]; [|unfold_world; tauto].
  destruct (secure (cookie sess) && negb (issecure (req w) (trustProxy cfg)));
    [unfold_world; tauto|].
  destruct (negb (truthy (shouldSetCookie cfg w sess)));
    unfold_world; tauto.
Qed.

(** Without a session the header listener only logs. *)
Lemma on_headers_no_session (cfg : Config) (w : World) :
  req_session (req w) = None ->
  on_headers cfg w = emit (EvDebug "no session") w.
Proof. unfold on_headers. now intros ->. Qed.

Lemma ended_send_headers (cfg : Config) (w : World) :
  ended (send_headers cfg w) = ended w.
Proof.
  unfold send_headers.
  destruct (headersSent w); [reflexivity|].
  destruct (hooked w); simpl; [|reflexivity].
  apply on_headers_fields.
Qed.

Lemma ended_store_callback (cfg : Config) (err : option StoreErr) (w : World) :
  ended (store_callback cfg err w) = ended w.
Proof.
  unfold store_callback.
  destruct (frame w) as [f|]; [|reflexivity].
  destruct (f_sync f), err; unfold end_call; simpl;
    rewrite ended_send_headers; reflexivity.
Qed.

Lemma ended_after_store_call (cfg : Config) (t : CbTiming) (w : World) :
  ended (snd (after_store_call cfg t w)) = ended w.
Proof.
  unfold after_store_call.
  set (w1 := match t with
             | CbSync err => store_callback cfg err w
             | CbLater => w
             end).
  assert (E : ended w1 = ended w).
  { subst w1. destruct t; [apply ended_store_callback|reflexivity]. }
  destruct (frame w1) as [f|]; simpl; [|exact E].
  destruct (f_sync f); simpl; [|exact E].
  unfold res_write. simpl. now rewrite ended_send_headers.
Qed.

(** Whatever the first invocation does, it leaves the guard set. *)
Lemma ended_res_end (now : Z) (cfg : Config) (t : CbTiming)
  (chunk encoding : option string) (w : World) :
  ended (snd (res_end now cfg t chunk encoding w)) = true.
Proof.
  unfold res_end.
  destruct (ended w) eqn:E; [exact E|].
  destruct (truthy (shouldDestroy cfg (with_ended true w))).
  - rewrite ended_after_store_call. reflexivity.
  - destruct (req_session (req (with_ended true w))) as [sess|].
    + match goal with
      | |- context [if ?c then _ else _] => destruct c
      end.
      * rewrite ended_after_store_call. reflexivity.
      * simpl. unfold end_call. simpl. now rewrite ended_send_headers.
    + simpl. unfold end_call. simpl. now rewrite ended_send_headers.
Qed.

(** C2: after the overridden [res.end] has been invoked once, whenever it
    is invoked again, whether before or after the store callback of the
    first invocation has run, it returns [false] and leaves the request,
    the response and the trace as they are: no store call, no further
    completion of the response. *)
Theorem C2_finalization_runs_once (now : Z) (cfg : Config)
  (t1 t2 : CbTiming) (chunk1 enc1 chunk2 enc2 : option string)
  (err : option StoreErr) (w : World) :
  let w1 := snd (res_end now cfg t1 chunk1 enc1 w) in
  let w2 := store_callback cfg err w1 in
  res_end now cfg t2 chunk2 enc2 w1 = (RetFalse, w1)
  /\ res_end now cfg t2 chunk2 enc2 w2 = (RetFalse, w2).
Proof.
  intros w1 w2.
  assert (E1 : ended w1 = true) by apply ended_res_end.
  assert (E2 : ended w2 = true).
  { subst w2. now rewrite ended_store_callback. }
  unfold res_end. now rewrite E1, E2.
Qed.

(** *** Traces of the response primitives *)

Local Open Scope list_scope.

Lemma header_events_same_view (cfg : Config) (w1 w2 : World) :
  same_view w1 w2 -> header_events cfg w1 = header_events cfg w2.
Proof.
  intros (Hr & Hh & Hk & Hc & Ho & Hi).
  unfold header_events, listener_events, shouldSetCookie, isModified.
  now rewrite Hr, Hh, Hk, Hc, Ho, Hi.
Qed.

Lemma trace_with_frame (f : option Frame) (w : World) :
  trace (with_frame f w) = trace w.
Proof. reflexivity. Qed.

Lemma trace_on_headers (cfg : Config) (w : World) :
  trace (on_headers cfg w) = trace w ++ listener_events cfg w.
Proof.
  unfold on_headers, listener_events.
  destruct (req_session (req w)) as [sess|]; [|reflexivity].
  destruct (secure (cookie sess) && negb (issecure (req w) (trustProxy cfg)));
    [reflexivity|].
  destruct (truthy (shouldSetCookie cfg w sess)); simpl;
    [reflexivity|now rewrite app_nil_r].
Qed.

Lemma trace_send_headers (cfg : Config) (w : World) :
  trace (send_headers cfg w) = trace w ++ header_events cfg w.
Proof.
  unfold send_headers, header_events.
  destruct (headersSent w); [now rewrite app_nil_r|].
  destruct (hooked w); simpl; [apply trace_on_headers|now rewrite app_nil_r].
Qed.

(** Sending the headers changes the trace and the sent flag only. *)
Lemma send_headers_fields (cfg : Config) (w : World) :
  req (send_headers cfg w) = req w
  /\ headersSent (send_headers cfg w) = true
  /\ hooked (send_headers cfg w) = hooked w
  /\ cookieId (send_headers cfg w) = cookieId w
  /\ originalHash (send_headers cfg w) = originalHash w
  /\ originalId (send_headers cfg w) = originalId w.
Proof.
  unfold send_headers.
  destruct (headersSent w) eqn:E; [tauto|].
  destruct (hooked w) eqn:Ek; simpl; [|tauto].
  destruct (on_headers_fields cfg w) as (? & ? & ? & ? & ? & ? & ? & ?).
  repeat split; congruence.
Qed.

Lemma header_events_sent (cfg : Config) (w : World) :
  headersSent w = true -> header_events cfg w = [].
Proof. unfold header_events. now intros ->. Qed.

Lemma trace_end_call (cfg : Config) (chunk encoding : option string)
  (w : World) :
  trace (end_call cfg chunk encoding w) =
  trace w ++ header_events cfg w ++ [EvEnd chunk encoding].
Proof.
  unfold end_call. simpl. now rewrite trace_send_headers, <- app_assoc.
Qed.

Lemma trace_res_write (cfg : Config) (chunk : string)
  (encoding : option string) (w : World) :
  trace (res_write cfg chunk encoding w) =
  trace w ++ header_events cfg w ++ [EvWrite chunk encoding].
Proof.
  unfold res_write. simpl. now rewrite trace_send_headers, <- app_assoc.
Qed.

(** The callback with the frame still synchronous: it logs, then completes
    the response with the chunk. *)
Lemma trace_store_callback_sync (cfg : Config) (err : option StoreErr)
  (w : World) (f : Frame) :
  frame w = Some f -> f_sync f = true ->
  trace (store_callback cfg err w) =
  trace w ++ error_events err ++ [EvDebug (f_done f)]
  ++ header_events cfg w ++ [EvEnd (Some (f_chunk f)) (f_encoding f)].
Proof.
  intros Hf Hs. unfold store_callback. rewrite Hf, Hs.
  rewrite trace_with_frame, trace_end_call. simpl.
  destruct err as [e|]; simpl; rewrite <- !app_assoc; simpl;
    repeat f_equal; apply header_events_same_view;
    unfold same_view; simpl; tauto.
Qed.

(** The callback at a later turn: it logs, then completes the response
    without a chunk. *)
Lemma trace_store_callback_later (cfg : Config) (err : option StoreErr)
  (w : World) (f : Frame) :
  frame w = Some f -> f_sync f = false ->
  trace (store_callback cfg err w) =
  trace w ++ error_events err ++ [EvDebug (f_done f)]
  ++ header_events cfg w ++ [EvEnd None None].
Proof.
  intros Hf Hs. unfold store_callback. rewrite Hf, Hs.
  rewrite trace_end_call. simpl.
  destruct err as [e|]; simpl; rewrite <- !app_assoc; simpl;
    repeat f_equal; apply header_events_same_view;
    unfold same_view; simpl; tauto.
Qed.

(** After the store call: what is added to the trace, what is returned, and
    the state the callback will find if it runs later. *)
Lemma after_store_call_spec (cfg : Config) (t : CbTiming) (w : World)
  (done chunk : string) (encoding : option string) :
  frame w = Some (new_frame done chunk encoding) ->
  let w' := snd (after_store_call cfg t w) in
  trace w' = trace w ++ commit_events cfg done t chunk encoding w
  /\ headersSent w' = true
  /\ req w' = req w
  /\ frame w' = Some (settled_frame done t chunk encoding)
  /\ fst (after_store_call cfg t w) =
     match t with CbSync _ => RetOfEnd | CbLater => RetOfWrite end.
Proof.
  intros Hf. unfold after_store_call. destruct t as [err|].
  - pose proof (trace_store_callback_sync cfg err w _ Hf eq_refl) as Ht.
    unfold store_callback in *. rewrite Hf in *. simpl in *.
    destruct (send_headers_fields cfg
                (emit (EvDebug done)
                   match err with
                   | Some e => emit (EvConsoleError (stack e)) w
                   | None => w
                   end)) as (Hr & Hs & _).
    repeat split; auto.
    rewrite Hr. destruct err; reflexivity.
  - rewrite Hf. simpl.
    destruct (send_headers_fields cfg w) as (Hr & Hs & _).
    repeat split; auto.
    rewrite trace_send_headers, <- app_assoc. reflexivity.
Qed.

Lemma commit_events_same_view (cfg : Config) (done : string) (t : CbTiming)
  (chunk : string) (encoding : option string) (w1 w2 : World) :
  same_view w1 w2 ->
  commit_events cfg done t chunk encoding w1 =
  commit_events cfg done t chunk encoding w2.
Proof.
  intros H. unfold commit_events.
  now rewrite (header_events_same_view cfg w1 w2 H).
Qed.

Lemma shouldSave_touched (now : Z) (cfg : Config) (w : World)
  (sess : Session) :
  shouldSave cfg (with_ended true (touched now w sess)) (resetMaxAge now sess)
  = shouldSave cfg w sess.
Proof.
  unfold shouldSave, isModified. simpl.
  now rewrite hash_resetMaxAge, resetMaxAge_id.
Qed.

(** *** The branches of the overridden [res.end] *)

(** The destroy branch. *)
Lemma res_end_destroy (now : Z) (cfg : Config) (t : CbTiming)
  (chunk encoding : option string) (w : World) :
  ended w = false ->
  truthy (shouldDestroy cfg w) = true ->
  let w' := snd (res_end now cfg t chunk encoding w) in
  trace w' =
    trace w ++ [EvDebug "destroying"; EvStoreDestroy (sessionID (req w))]
    ++ commit_events cfg "destroyed" t (chunk_or_empty chunk) encoding w
  /\ headersSent w' = true
  /\ req w' = req w
  /\ frame w' =
     Some (settled_frame "destroyed" t (chunk_or_empty chunk) encoding).
Proof.
  intros He Hd. unfold res_end. rewrite He.
  change (shouldDestroy cfg (with_ended true w)) with (shouldDestroy cfg w).
  rewrite Hd.
  match goal with
  | |- context [after_store_call cfg t ?w0] =>
      destruct (after_store_call_spec cfg t w0 "destroyed"
                  (chunk_or_empty chunk) encoding eq_refl)
        as (Ht & Hs & Hr & Hf & _);
      rewrite (commit_events_same_view cfg _ _ _ _ w0 w) in Ht
  end.
  - cbv zeta. rewrite Ht, Hs, Hr, Hf. simpl.
    repeat (rewrite <- app_assoc; simpl). repeat split.
  - unfold same_view. simpl. tauto.
Qed.

(** No session attached and nothing to destroy. *)
Lemma res_end_no_session (now : Z) (cfg : Config) (t : CbTiming)
  (chunk encoding : option string) (w : World) :
  ended w = false ->
  truthy (shouldDestroy cfg w) = false ->
  req_session (req w) = None ->
  res_end now cfg t chunk encoding w =
  (RetOfEnd,
   end_call cfg (Some (chunk_or_empty chunk)) encoding
     (emit (EvDebug "no session") (with_ended true w))).
Proof.
  intros He Hd Hs. unfold res_end. rewrite He.
  change (shouldDestroy cfg (with_ended true w)) with (shouldDestroy cfg w).
  rewrite Hd. simpl. now rewrite Hs.
Qed.

(** A session attached and [shouldSave] truthy. *)
Lemma res_end_save (now : Z) (cfg : Config) (t : CbTiming)
  (chunk encoding : option string) (w : World) (sess : Session) :
  ended w = false ->
  req_session (req w) = Some sess ->
  truthy (shouldSave cfg w sess) = true ->
  let w' := snd (res_end now cfg t chunk encoding w) in
  trace w' =
    trace w ++ [EvDebug "saving"; EvStoreSet (id sess) (resetMaxAge now sess)]
    ++ commit_events cfg "saved" t (chunk_or_empty chunk) encoding
         (touched now w sess)
  /\ headersSent w' = true
  /\ req w' = req (touched now w sess)
  /\ frame w' = Some (settled_frame "saved" t (chunk_or_empty chunk) encoding).
Proof.
  intros He Hs Hsave. unfold res_end. rewrite He.
  change (shouldDestroy cfg (with_ended true w)) with (shouldDestroy cfg w).
  rewrite (shouldDestroy_attached cfg w sess Hs).
  change (req (with_ended true w)) with (req w). rewrite Hs.
  change (with_req (set_req_session (Some (resetMaxAge now sess)) (req w))
            (with_ended true w))
    with (with_ended true (touched now w sess)).
  rewrite shouldSave_touched, Hsave.
  match goal with
  | |- context [after_store_call cfg t ?w0] =>
      destruct (after_store_call_spec cfg t w0 "saved"
                  (chunk_or_empty chunk) encoding eq_refl)
        as (Ht & Hh & Hr & Hf & _);
      rewrite (commit_events_same_view cfg _ _ _ _ w0 (touched now w sess))
        in Ht
  end.
  - cbv zeta. rewrite Ht, Hh, Hr, Hf. simpl.
    repeat (rewrite <- app_assoc; simpl). rewrite resetMaxAge_id.
    repeat split.
  - unfold same_view. simpl. tauto.
Qed.

(** A session attached and [shouldSave] falsy. *)
Lemma res_end_no_save (now : Z) (cfg : Config) (t : CbTiming)
  (chunk encoding : option string) (w : World) (sess : Session) :
  ended w = false ->
  req_session (req w) = Some sess ->
  truthy (shouldSave cfg w sess) = false ->
  res_end now cfg t chunk encoding w =
  (RetOfEnd,
   end_call cfg (Some (chunk_or_empty chunk)) encoding
     (with_ended true (touched now w sess))).
Proof.
  intros He Hs Hsave. unfold res_end. rewrite He.
  change (shouldDestroy cfg (with_ended true w)) with (shouldDestroy cfg w).
  rewrite (shouldDestroy_attached cfg w sess Hs).
  change (req (with_ended true w)) with (req w). rewrite Hs.
  change (with_req (set_req_session (Some (resetMaxAge now sess)) (req w))
            (with_ended true w))
    with (with_ended true (touched now w sess)).
  now rewrite shouldSave_touched, Hsave.
Qed.

(** *** Counting events of one kind *)

Lemma only_app (kind : Event -> bool) (l1 l2 : list Event) :
  only kind (l1 ++ l2) = only kind l1 ++ only kind l2.
Proof. apply filter_app. Qed.

Lemma only_listener_events (kind : Event -> bool) (cfg : Config) (w : World) :
  silent_in_headers kind -> only kind (listener_events cfg w) = [].
Proof.
  intros [Hd Hc]. unfold listener_events.
  destruct (req_session (req w)) as [sess|]; simpl; [|now rewrite Hd].
  destruct (secure (cookie sess) && negb (issecure (req w) (trustProxy cfg)));
    simpl; [now rewrite Hd|].
  destruct (truthy (shouldSetCookie cfg w sess)); simpl; [now rewrite Hc|auto].
Qed.

Lemma only_header_events (kind : Event -> bool) (cfg : Config) (w : World) :
  silent_in_headers kind -> only kind (header_events cfg w) = [].
Proof.
  intros H. unfold header_events.
  destruct (headersSent w); [reflexivity|].
  destruct (hooked w); [now apply only_listener_events|reflexivity].
Qed.

Lemma silent_store_set : silent_in_headers is_store_set.
Proof. split; reflexivity. Qed.
Lemma silent_store_destroy : silent_in_headers is_store_destroy.
Proof. split; reflexivity. Qed.
Lemma silent_next : silent_in_headers is_next.
Proof. split; reflexivity. Qed.
Lemma silent_end : silent_in_headers is_end.
Proof. split; reflexivity. Qed.

(** Without a session attached the headers carry no cookie. *)
Lemma no_cookie_without_session (cfg : Config) (w : World) :
  req_session (req w) = None ->
  only is_set_cookie (header_events cfg w) = [].
Proof.
  intros H. unfold header_events, listener_events. rewrite H.
  destruct (headersSent w), (hooked w); reflexivity.
Qed.

Lemma only_commit_events_quiet (kind : Event -> bool) (cfg : Config)
  (done : string) (t : CbTiming) (chunk : string) (encoding : option string)
  (w : World) :
  silent_in_headers kind ->
  (forall s, kind (EvConsoleError s) = false) ->
  (forall c e, kind (EvEnd c e) = false) ->
  (forall c e, kind (EvWrite c e) = false) ->
  only kind (commit_events cfg done t chunk encoding w) = [].
Proof.
  intros Hs Hc He Hw. pose proof Hs as [Hd _].
  unfold commit_events. destruct t as [err|];
    rewrite !only_app, (only_header_events kind cfg w Hs); simpl.
  - rewrite Hd, He. destruct err; simpl; [rewrite Hc|]; reflexivity.
  - now rewrite Hw.
Qed.

(** *** Claims about saving *)

Lemma truthy_shouldSave (cfg : Config) (w : World) (sess : Session) :
  truthy (shouldSave cfg w sess) =
  if optstr_neq (cookieId w) (sessionID (req w))
  then truthy (saveUninitializedSession cfg) || isModified w sess
  else truthy (resaveSession cfg) || isModified w sess.
Proof.
  unfold shouldSave.
  destruct (optstr_neq (cookieId w) (sessionID (req w)));
    apply truthy_js_or_bool.
Qed.

(** What the overridden [res.end] hands to the store's [set], with a
    session attached. *)
Lemma res_end_store_sets (now : Z) (cfg : Config) (t : CbTiming)
  (chunk encoding : option string) (w : World) (sess : Session) :
  ended w = false ->
  req_session (req w) = Some sess ->
  only is_store_set (trace (snd (res_end now cfg t chunk encoding w))) =
  only is_store_set (trace w)
  ++ (if truthy (shouldSave cfg w sess)
      then [EvStoreSet (id sess) (resetMaxAge now sess)] else []).
Proof.
  intros He Hs. destruct (truthy (shouldSave cfg w sess)) eqn:E.
  - destruct (res_end_save now cfg t chunk encoding w sess He Hs E)
      as (Ht & _).
    rewrite Ht, !only_app. f_equal. simpl.
    rewrite only_commit_events_quiet; auto using silent_store_set.
  - rewrite (res_end_no_save now cfg t chunk encoding w sess He Hs E).
    cbn [snd]. rewrite trace_end_call, !only_app.
    rewrite (only_header_events _ _ _ silent_store_set). reflexivity.
Qed.

(** C1: with a session attached at finalization, the store's [set] is
    called exactly when the decision below holds: if the id of the request
    differs from the id its cookie presented, [saveUninitialized] or
    [isModified]; otherwise [resave] or [isModified].  [isModified] holds
    iff the fingerprint of the session differs from the snapshot or the id
    of the session differs from the snapshot.  With [resave] off, the
    fingerprint and the id as in the snapshots and the id of the request
    unchanged, nothing is saved. *)
Theorem C1_shouldSave_decision (now : Z) (cfg : Config) (t : CbTiming)
  (chunk encoding : option string) (w : World) (sess : Session) :
  ended w = false ->
  req_session (req w) = Some sess ->
  let decision :=
    if optstr_neq (cookieId w) (sessionID (req w))
    then truthy (saveUninitializedSession cfg) || isModified w sess
    else truthy (resaveSession cfg) || isModified w sess in
  let w' := snd (res_end now cfg t chunk encoding w) in
  (isModified w sess = true <->
   originalHash w <> hash (session_obj sess) \/ originalId w <> id sess)
  /\ truthy (shouldSave cfg w sess) = decision
  /\ only is_store_set (trace w') =
     only is_store_set (trace w)
     ++ (if decision then [EvStoreSet (id sess) (resetMaxAge now sess)]
         else [])
  /\ (truthy (resaveSession cfg) = false ->
      originalHash w = hash (session_obj sess) ->
      originalId w = id sess ->
      cookieId w = sessionID (req w) ->
      only is_store_set (trace w') = only is_store_set (trace w)).
Proof.
  intros He Hs decision w'.
  assert (Hd : truthy (shouldSave cfg w sess) = decision)
    by apply truthy_shouldSave.
  assert (Ht : only is_store_set (trace w') =
               only is_store_set (trace w)
               ++ (if decision
                   then [EvStoreSet (id sess) (resetMaxAge now sess)]
                   else [])).
  { subst w'. rewrite <- Hd. now apply res_end_store_sets. }
  split; [apply isModified_spec|]. split; [exact Hd|]. split; [exact Ht|].
  intros Hr Hh Hi Hc. rewrite Ht.
  assert (Hm : isModified w sess = false).
  { destruct (isModified w sess) eqn:E; [|reflexivity].
    apply isModified_spec in E. tauto. }
  assert (Hn : optstr_neq (cookieId w) (sessionID (req w)) = false)
    by now apply optstr_neq_false.
  subst decision. rewrite Hn, Hr, Hm. simpl. apply app_nil_r.
Qed.

Lemma C1_witness :
  let w := world_of (Some "A") session_ab (Some session_ab_secure) in
  truthy (shouldSave config_lazy w session_ab_secure) = false
  /\ only is_store_set
       (trace (snd (res_end 0 config_lazy CbLater None None w))) = [].
Proof.
  intros w.
  destruct (C1_shouldSave_decision 0 config_lazy CbLater None None w
              session_ab_secure eq_refl eq_refl) as (_ & Hd & _ & Hn).
  split; [exact Hd|].
  apply Hn; reflexivity.
Defined.

Lemma generate_spec (now : Z) (cfg : Config) (w : World) :
  let w' := generate now cfg w in
  let fresh := fresh_session now cfg (req w) in
  req_session (req w') = Some fresh
  /\ sessionID (req w') = id fresh
  /\ originalId w' = id fresh
  /\ originalHash w' = hash (session_obj fresh)
  /\ cookieId w' = cookieId w
  /\ ended w' = ended w
  /\ trace w' = trace w.
Proof. unfold generate, store_generate, fresh_session. simpl. tauto. Qed.

(** C10: when [resave] and [saveUninitialized] are left out, both are
    taken to be [true].  Then every session attached at finalization is
    handed to the store's [set], modified or not; in particular the session
    [generate()] has just attached, which is unmodified. *)
Theorem C10_defaults_save_everything (gsid : Request -> string) (now : Z)
  (o : Options) (cfg : Config) (notes : list string) :
  o_resave o = JUndefined ->
  o_saveUninitialized o = JUndefined ->
  session gsid o = inr (cfg, notes) ->
  resaveSession cfg = JBool true
  /\ saveUninitializedSession cfg = JBool true
  /\ (forall (t : CbTiming) (chunk encoding : option string) (w : World)
        (sess : Session),
        ended w = false ->
        req_session (req w) = Some sess ->
        shouldSave cfg w sess = JBool true
        /\ only is_store_set (trace (snd (res_end now cfg t chunk encoding w)))
           = only is_store_set (trace w)
             ++ [EvStoreSet (id sess) (resetMaxAge now sess)])
  /\ (forall (t : CbTiming) (chunk encoding : option string) (w0 : World),
        ended w0 = false ->
        let w := generate now cfg w0 in
        let fresh := fresh_session now cfg (req w0) in
        isModified w fresh = false
        /\ only is_store_set (trace (snd (res_end now cfg t chunk encoding w)))
           = only is_store_set (trace w0)
             ++ [EvStoreSet (id fresh) (resetMaxAge now fresh)]).
Proof.
  intros Hr Hu Hs.
  destruct (session_config gsid o cfg notes Hs) as (_ & _ & Er & Eu & _).
  rewrite Hr in Er. rewrite Hu in Eu. simpl in Er, Eu.
  assert (Hall : forall t chunk encoding w sess,
             ended w = false ->
             req_session (req w) = Some sess ->
             shouldSave cfg w sess = JBool true
             /\ only is_store_set
                  (trace (snd (res_end now cfg t chunk encoding w)))
                = only is_store_set (trace w)
                  ++ [EvStoreSet (id sess) (resetMaxAge now sess)]).
  { intros t chunk encoding w sess He Hsess.
    assert (E : shouldSave cfg w sess = JBool true).
    { unfold shouldSave. rewrite Er, Eu.
      destruct (optstr_neq (cookieId w) (sessionID (req w))); reflexivity. }
    split; [exact E|].
    rewrite (res_end_store_sets now cfg t chunk encoding w sess He Hsess).
    now rewrite E. }
  split; [exact Er|]. split; [exact Eu|]. split; [exact Hall|].
  intros t chunk encoding w0 He w fresh.
  destruct (generate_spec now cfg w0) as (Hq & _ & Hi & Hh & _ & He' & Ht).
  fold w fresh in Hq, Hi, Hh, He', Ht.
  split.
  - unfold isModified. rewrite Hh, Hi.
    assert (E1 : forall a, optnum_neq a a = false)
      by (intros a; now apply optnum_neq_false).
    assert (E2 : forall a, optstr_neq a a = false)
      by (intros a; now apply optstr_neq_false).
    now rewrite E1, E2.
  - rewrite <- Ht. apply Hall; [congruence|exact Hq].
Qed.

Lemma C10_witness :
  let w := world_of (Some "A") session_ab (Some session_ab) in
  session example_genid (options_with JUndefined JUndefined JUndefined)
  = inr (config_with JUndefined JUndefined JUndefined,
         [resave_notice; saveUninitialized_notice])
  /\ isModified w session_ab = false
  /\ only is_store_set
       (trace (snd (res_end 0 (config_with JUndefined JUndefined JUndefined)
                      CbLater None None w)))
     = [EvStoreSet (Some "A") session_ab].
Proof.
  intros w. split; [reflexivity|]. split; [reflexivity|].
  destruct (C10_defaults_save_everything example_genid 0
              (options_with JUndefined JUndefined JUndefined)
              (config_with JUndefined JUndefined JUndefined)
              [resave_notice; saveUninitialized_notice]
              eq_refl eq_refl eq_refl) as (_ & _ & H & _).
  exact (proj2 (H CbLater None None w session_ab eq_refl eq_refl)).
Defined.

(** *** Claims about destroying *)

Ltac tidy_only :=
  simpl; rewrite <- ?app_assoc; simpl; rewrite ?app_nil_r; try reflexivity.

(** C5: with [unset: 'destroy'], a truthy [req.sessionID] and the session
    set to null, the overridden [res.end] calls [store.destroy] with that
    id, and the whole of finalization (the call, and the store callback if
    it runs later) sets no cookie and calls the original [end] once, after
    the callback has logged that the session is destroyed; as long as the
    callback has not run, the original [end] has not been called. *)
Theorem C5_destroy_on_unset (gsid : Request -> string) (now : Z)
  (o : Options) (cfg : Config) (notes : list string) (t : CbTiming)
  (err : option StoreErr) (chunk encoding : option string) (w : World)
  (sid : string) :
  session gsid o = inr (cfg, notes) ->
  o_unset o = JStr "destroy" ->
  sessionID (req w) = Some sid ->
  sid <> EmptyString ->
  req_session (req w) = None ->
  ended w = false ->
  let w1 := snd (res_end now cfg t chunk encoding w) in
  let w2 := match t with
            | CbSync _ => w1
            | CbLater => store_callback cfg err w1
            end in
  only is_store_destroy (trace w2) =
    only is_store_destroy (trace w) ++ [EvStoreDestroy (Some sid)]
  /\ only is_set_cookie (trace w2) = only is_set_cookie (trace w)
  /\ (exists pre post c e,
        trace w2 = trace w ++ pre ++ [EvDebug "destroyed"] ++ post
        /\ In (EvStoreDestroy (Some sid)) pre
        /\ only is_end pre = []
        /\ only is_end post = [EvEnd c e])
  /\ (t = CbLater -> only is_end (trace w1) = only is_end (trace w)).
Proof.
  intros Hs Hu Hsid Hne Hnull He w1 w2.
  destruct (session_config gsid o cfg notes Hs) as (_ & _ & _ & _ & Ed).
  rewrite Hu in Ed. simpl in Ed.
  assert (Hd : truthy (shouldDestroy cfg w) = true).
  { rewrite shouldDestroy_truthy, Hsid, Hnull, Ed. simpl.
    apply String.eqb_neq in Hne. now rewrite Hne. }
  destruct (res_end_destroy now cfg t chunk encoding w He Hd)
    as (Ht & Hh & Hr & Hf).
  fold w1 in Ht, Hh, Hr, Hf. rewrite Hsid in Ht.
  pose proof (no_cookie_without_session cfg w Hnull) as Hck.
  pose proof (only_header_events _ cfg w silent_end) as Hend.
  pose proof (only_header_events _ cfg w silent_store_destroy) as Hdes.
  destruct t as [err0|].
  - (* the store ran the callback before returning *)
    subst w2. rewrite Ht. unfold commit_events.
    split; [|split; [|split]].
    + rewrite !only_app, Hdes. destruct err0; tidy_only.
    + rewrite !only_app, Hck. destruct err0; tidy_only.
    + exists ([EvDebug "destroying"; EvStoreDestroy (Some sid)]
              ++ error_events err0),
        (header_events cfg w ++ [EvEnd (Some (chunk_or_empty chunk)) encoding]),
        (Some (chunk_or_empty chunk)), encoding.
      split; [|split; [|split]].
      * now rewrite <- !app_assoc.
      * simpl. auto.
      * destruct err0; reflexivity.
      * now rewrite only_app, Hend.
    + discriminate.
  - (* the store runs the callback later *)
    assert (Ht2 : trace w2 =
                  trace w1 ++ error_events err
                  ++ [EvDebug "destroyed"] ++ [EvEnd None None]).
    { subst w2.
      rewrite (trace_store_callback_later cfg err w1 _ Hf eq_refl).
      now rewrite (header_events_sent cfg w1 Hh). }
    rewrite Ht2, Ht. unfold commit_events.
    split; [|split; [|split]].
    + rewrite !only_app, Hdes. destruct err; tidy_only.
    + rewrite !only_app, Hck. destruct err; tidy_only.
    + exists ([EvDebug "destroying"; EvStoreDestroy (Some sid)]
              ++ header_events cfg w
              ++ [EvWrite (chunk_or_empty chunk) encoding]
              ++ error_events err),
        [EvEnd None None], None, None.
      split; [|split; [|split]].
      * now rewrite <- !app_assoc.
      * simpl. auto.
      * rewrite !only_app, Hend. destruct err; tidy_only.
      * reflexivity.
    + intros _. rewrite !only_app, Hend. tidy_only.
Qed.

Lemma C5_witness :
  let cfg := config_with JUndefined JUndefined (JStr "destroy") in
  let w := world_of (Some "A") session_ab None in
  let w1 := snd (res_end 0 cfg CbLater (Some "bye") None w) in
  let w2 := store_callback cfg None w1 in
  only is_store_destroy (trace w2) = [EvStoreDestroy (Some "A")]
  /\ only is_set_cookie (trace w2) = []
  /\ only is_end (trace w1) = []
  /\ only is_end (trace w2) = [EvEnd None None].
Proof.
  intros cfg w w1 w2.
  assert (Hne : "A" <> EmptyString) by discriminate.
  destruct (C5_destroy_on_unset example_genid 0
              (options_with JUndefined JUndefined (JStr "destroy")) cfg
              [resave_notice; saveUninitialized_notice] CbLater None
              (Some "bye") None w "A"
              eq_refl eq_refl eq_refl Hne eq_refl eq_refl)
    as (Hd & Hc & _ & Hl).
  split; [exact Hd|]. split; [exact Hc|]. split; [exact (Hl eq_refl)|].
  reflexivity.
Defined.

(** *** Claims about the cookie *)

(** With trust-proxy [false] only an encrypted connection is secure. *)
Lemma issecure_untrusted (r : Request) :
  issecure r (JBool false) = encrypted r.
Proof. unfold issecure. now destruct (encrypted r). Qed.

(** The headers of a secure cookie over an insecure request carry no
    cookie. *)
Lemma insecure_headers_no_cookie (cfg : Config) (w : World) (sess : Session) :
  req_session (req w) = Some sess ->
  secure (cookie sess) = true ->
  issecure (req w) (trustProxy cfg) = false ->
  only is_set_cookie (header_events cfg w) = [].
Proof.
  intros Hs Hc Hi. unfold header_events, listener_events.
  rewrite Hs, Hc, Hi.
  destruct (headersSent w), (hooked w); reflexivity.
Qed.

(** C4: with [proxy: false] and a connection that is not encrypted,
    [issecure] is false whatever the request says ([req.secure],
    [x-forwarded-proto]); for a session whose cookie is secure the header
    listener sets no cookie and logs that the request is not secured, and
    the whole overridden [res.end] sets none either. *)
Theorem C4_no_secure_cookie_without_encryption (gsid : Request -> string)
  (now : Z) (o : Options) (cfg : Config) (notes : list string)
  (t : CbTiming) (chunk encoding : option string) (w : World)
  (sess : Session) :
  session gsid o = inr (cfg, notes) ->
  o_proxy o = JBool false ->
  encrypted (req w) = false ->
  req_session (req w) = Some sess ->
  secure (cookie sess) = true ->
  issecure (req w) (trustProxy cfg) = false
  /\ on_headers cfg w = emit (EvDebug "not secured") w
  /\ only is_set_cookie (trace (send_headers cfg w)) =
     only is_set_cookie (trace w)
  /\ (ended w = false ->
      only is_set_cookie (trace (snd (res_end now cfg t chunk encoding w))) =
      only is_set_cookie (trace w)).
Proof.
  intros Hs Hp Henc Hsess Hsec.
  destruct (session_config gsid o cfg notes Hs) as (Et & _).
  rewrite Hp in Et.
  assert (Hi : issecure (req w) (trustProxy cfg) = false)
    by now rewrite Et, issecure_untrusted.
  split; [exact Hi|]. split; [|split].
  - unfold on_headers. now rewrite Hsess, Hsec, Hi.
  - rewrite trace_send_headers, only_app.
    rewrite (insecure_headers_no_cookie cfg w sess Hsess Hsec Hi).
    apply app_nil_r.
  - intros He.
    assert (Hh : only is_set_cookie (header_events cfg (touched now w sess))
                 = []).
    { apply (insecure_headers_no_cookie cfg _ (resetMaxAge now sess)).
      - reflexivity.
      - now rewrite resetMaxAge_secure.
      - exact Hi. }
    destruct (truthy (shouldSave cfg w sess)) eqn:E.
    + destruct (res_end_save now cfg t chunk encoding w sess He Hsess E)
        as (Ht & _).
      rewrite Ht. unfold commit_events.
      destruct t as [err|]; rewrite !only_app, Hh; simpl;
        [destruct err|]; simpl; now rewrite app_nil_r.
    + rewrite (res_end_no_save now cfg t chunk encoding w sess He Hsess E).
      cbn [snd]. rewrite trace_end_call, !only_app.
      change (header_events cfg (with_ended true (touched now w sess)))
        with (header_events cfg (touched now w sess)).
      rewrite Hh. simpl. now rewrite app_nil_r.
Qed.

Lemma C4_witness :
  let cfg := config_with (JBool false) (JBool true) JUndefined in
  issecure (req world_forwarded_https) (JBool true) = true
  /\ issecure (req world_forwarded_https) (trustProxy cfg) = false
  /\ only is_set_cookie (trace (send_headers cfg world_forwarded_https)) = []
  /\ only is_set_cookie
       (trace (snd (res_end 0 cfg CbLater None None world_forwarded_https)))
     = [].
Proof.
  intros cfg.
  destruct (C4_no_secure_cookie_without_encryption example_genid 0
              (options_with (JBool false) (JBool true) JUndefined) cfg
              [resave_notice; saveUninitialized_notice] CbLater None None
              world_forwarded_https session_ab_secure
              eq_refl eq_refl eq_refl eq_refl eq_refl)
    as (Hi & _ & Hh & He).
  split; [reflexivity|]. split; [exact Hi|]. split; [exact Hh|].
  exact (He eq_refl).
Defined.

(** C6: with the [rolling] option truthy, [shouldSetCookie] returns [true]
    for every request and session, whatever the snapshots, the ids and the
    other options are. *)
Theorem C6_rolling_always_sets_cookie (gsid : Request -> string)
  (o : Options) (cfg : Config) (notes : list string) (w : World)
  (sess : Session) :
  session gsid o = inr (cfg, notes) ->
  truthy (o_rolling o) = true ->
  shouldSetCookie cfg w sess = JBool true.
Proof.
  intros Hs Hr.
  destruct (session_config gsid o cfg notes Hs) as (_ & Er & _).
  unfold shouldSetCookie. rewrite Er. unfold js_or. now rewrite Hr, Hr.
Qed.

Lemma C6_witness :
  let w := world_of (Some "A") session_ab (Some session_ab) in
  isModified w session_ab = false
  /\ shouldSetCookie (config_with JUndefined (JBool true) JUndefined) w
       session_ab = JBool true.
Proof.
  intros w. split; [reflexivity|].
  exact (C6_rolling_always_sets_cookie example_genid
           (options_with JUndefined (JBool true) JUndefined)
           (config_with JUndefined (JBool true) JUndefined)
           [resave_notice; saveUninitialized_notice] w session_ab
           eq_refl eq_refl).
Defined.

(** *** Claims about the store's replies *)

(** C8: when [store.get] reports a miss (neither an error nor a record, or
    an error whose code is [ENOENT]), the callback attaches a fresh session
    with blank data under the id [generateId] returns, takes both snapshots
    from that session, and calls [next()] without an error. *)
Theorem C8_miss_generates_session (now : Z) (cfg : Config)
  (reply : GetReply) (w : World) :
  is_miss reply = true ->
  let w' := store_get_callback now cfg reply w in
  let fresh := fresh_session now cfg (req w) in
  req_session (req w') = Some fresh
  /\ sessionID (req w') = Some (generateId cfg (req w))
  /\ data fresh = []
  /\ originalId w' = id fresh
  /\ originalHash w' = hash (session_obj fresh)
  /\ isModified w' fresh = false
  /\ only is_next (trace w') = only is_next (trace w) ++ [EvNext None].
Proof.
  intros Hm w' fresh.
  assert (E : exists m, w' = next None (generate now cfg (emit (EvDebug m) w))).
  { subst w'. destruct reply as [err| |rec]; simpl in Hm; try discriminate.
    - exists "error %j". unfold store_get_callback. now rewrite Hm.
    - exists "no session found". reflexivity. }
  destruct E as [m ->].
  destruct (generate_spec now cfg (emit (EvDebug m) w))
    as (Hq & Hsid & Hi & Hh & _ & _ & Ht).
  change (req (emit (EvDebug m) w)) with (req w) in *.
  fold fresh in Hq, Hsid, Hi, Hh.
  unfold next.
  repeat match goal with
         | |- context [req (emit ?e ?x)] =>
             change (req (emit e x)) with (req x)
         | |- context [originalId (emit ?e ?x)] =>
             change (originalId (emit e x)) with (originalId x)
         | |- context [originalHash (emit ?e ?x)] =>
             change (originalHash (emit e x)) with (originalHash x)
         end.
  split; [exact Hq|]. split; [exact Hsid|]. split; [reflexivity|].
  split; [exact Hi|]. split; [exact Hh|]. split.
  - unfold isModified.
    change (originalId (emit (EvNext None) ?x)) with (originalId x).
    cbn [originalHash originalId emit]. rewrite Hh, Hi.
    assert (E1 : optnum_neq (hash (session_obj fresh))
                   (hash (session_obj fresh)) = false)
      by now apply optnum_neq_false.
    assert (E2 : optstr_neq (id fresh) (id fresh) = false)
      by now apply optstr_neq_false.
    now rewrite E1, E2.
  - cbn [trace emit]. rewrite only_app, Ht. cbn [trace emit].
    rewrite only_app. simpl. now rewrite app_nil_r.
Qed.

Lemma C8_witness :
  let w := world_of (Some "A") session_ab None in
  let w' := store_get_callback 0 config_lazy (GetError no_entry) w in
  is_miss (GetError no_entry) = true
  /\ sessionID (req w') = Some "generated"
  /\ only is_next (trace w') = [EvNext None].
Proof.
  intros w w'. split; [reflexivity|].
  destruct (C8_miss_generates_session 0 config_lazy (GetError no_entry) w
              eq_refl) as (_ & Hs & _ & _ & _ & _ & Hn).
  split; [exact Hs|exact Hn].
Defined.

(** C7, as the code has it: an error of [store.get] that is not a miss is
    handed to [next(err)] and leaves the request as it was, without a
    session; an error of [store.set] or [store.destroy] reaches the
    callback of the overridden [res.end], which writes its stack to
    [console.error], calls [next] not at all and completes the response. *)
Theorem C7_store_errors (now : Z) (cfg : Config) (err : StoreErr)
  (wg wc : World) (f : Frame) :
  is_miss (GetError err) = false ->
  frame wc = Some f ->
  (let w' := store_get_callback now cfg (GetError err) wg in
   only is_next (trace w') = only is_next (trace wg) ++ [EvNext (Some err)]
   /\ req w' = req wg
   /\ originalHash w' = originalHash wg
   /\ originalId w' = originalId wg)
  /\ (let w' := store_callback cfg (Some err) wc in
      only is_next (trace w') = only is_next (trace wc)
      /\ exists c e,
           trace w' =
           trace wc ++ [EvConsoleError (stack err); EvDebug (f_done f)]
           ++ header_events cfg wc ++ [EvEnd c e]).
Proof.
  intros Hm Hf. split.
  - unfold store_get_callback. simpl in Hm. rewrite Hm.
    unfold next. cbn [trace emit req originalHash originalId].
    rewrite !only_app. simpl. rewrite app_nil_r. tauto.
  - cbv zeta.
    assert (Ht : exists c e,
               trace (store_callback cfg (Some err) wc) =
               trace wc ++ [EvConsoleError (stack err); EvDebug (f_done f)]
               ++ header_events cfg wc ++ [EvEnd c e]).
    { destruct (f_sync f) eqn:Es.
      - exists (Some (f_chunk f)), (f_encoding f).
        now rewrite (trace_store_callback_sync cfg (Some err) wc f Hf Es).
      - exists None, None.
        now rewrite (trace_store_callback_later cfg (Some err) wc f Hf Es). }
    split; [|exact Ht].
    destruct Ht as (c & e & ->).
    rewrite !only_app, (only_header_events _ cfg wc silent_next).
    simpl. now rewrite app_nil_r.
Qed.

Lemma C7_witness :
  let wg := world_of (Some "A") session_ab None in
  only is_next
    (trace (store_get_callback 0 config_lazy (GetError connection_lost) wg))
  = [EvNext (Some connection_lost)]
  /\ only is_next (trace (store_callback config_lazy (Some connection_lost)
                            world_saving)) = [].
Proof.
  intros wg.
  destruct (C7_store_errors 0 config_lazy connection_lost wg world_saving
              (settled_frame "saved" CbLater EmptyString None)
              eq_refl eq_refl) as ((Hg & _) & (Hc & _)).
  split; [exact Hg|exact Hc].
Defined.

(** C7 fails as stated: a save whose store reports a backend failure logs
    the failure and completes the response; the failure is never handed to
    [next]. *)
Lemma C7_set_error_not_passed_on :
  let w' :=
    snd (res_end 0 (config_with JUndefined JUndefined JUndefined)
           (CbSync (Some connection_lost)) None None
           (world_of (Some "A") session_ab (Some session_ab))) in
  trace w' =
    [EvDebug "saving"; EvStoreSet (Some "A") session_ab;
     EvConsoleError "Error: connection lost"; EvDebug "saved";
     EvEnd (Some EmptyString) None]
  /\ ~ In (EvNext (Some connection_lost)) (trace w').
Proof.
  assert (E : trace
                (snd (res_end 0 (config_with JUndefined JUndefined JUndefined)
                        (CbSync (Some connection_lost)) None None
                        (world_of (Some "A") session_ab (Some session_ab))))
              = [EvDebug "saving"; EvStoreSet (Some "A") session_ab;
                 EvConsoleError "Error: connection lost"; EvDebug "saved";
                 EvEnd (Some EmptyString) None])
    by (vm_compute; reflexivity).
  cbv zeta. rewrite E. split; [reflexivity|].
  simpl. intuition discriminate.
Qed.

(* ------------------------------------------------------------------ *)
(** ** Further properties: [session(options)] *)

Lemma session_unfold (gsid : Request -> string) (o : Options) :
  session gsid o =
  if bad_genid o then inl (TypeError "genid option must be a function")
  else if bad_unset o then inl (TypeError unset_message)
  else
    inr ({| name := optstr_or (o_name o) (optstr_or (o_key o) "connect.sid");
            cookieOptions :=
              match o_cookie o with
              | Some c => c
              | None => no_cookie_options
              end;
            trustProxy := o_proxy o;
            rollingSessions := js_or (o_rolling o) (JBool false);
            resaveSession :=
              if is_undefined (o_resave o) then JBool true else o_resave o;
            saveUninitializedSession :=
              if is_undefined (o_saveUninitialized o) then JBool true
              else o_saveUninitialized o;
            generateId :=
              match o_genid o with
              | GenidFunction f => f
              | _ => gsid
              end;
            unsetDestroy := strict_eq_str (o_unset o) "destroy" |},
         (if is_undefined (o_resave o) then [resave_notice] else [])
         ++ (if is_undefined (o_saveUninitialized o)
             then [saveUninitialized_notice] else [])).
Proof.
  unfold session, bad_genid, bad_unset.
  destruct (o_genid o) as [|f|v]; [| |destruct (truthy v); [reflexivity|]];
    destruct (is_undefined (o_resave o)),
      (is_undefined (o_saveUninitialized o)),
      (truthy (o_unset o) && negb (strict_eq_str (o_unset o) "destroy")
       && negb (strict_eq_str (o_unset o) "keep"));
    reflexivity.
Qed.

(** X1: [session(options)] throws exactly when [genid] is a truthy value
    that is not a function, or [unset] is truthy and neither ['destroy'] nor
    ['keep']; the complaint about [genid] comes first.  In particular
    [unset: 'keep'], a falsy [unset] and a falsy [genid] are accepted. *)
Theorem X1_setup_errors (gsid : Request -> string) (o : Options) :
  ((exists cfg notes, session gsid o = inr (cfg, notes)) <->
   bad_genid o = false /\ bad_unset o = false)
  /\ (bad_genid o = true ->
      session gsid o = inl (TypeError "genid option must be a function"))
  /\ (bad_genid o = false -> bad_unset o = true ->
      session gsid o = inl (TypeError unset_message))
  /\ (o_unset o = JStr "keep" \/ truthy (o_unset o) = false ->
      bad_unset o = false).
Proof.
  rewrite session_unfold.
  assert (Hk : o_unset o = JStr "keep" \/ truthy (o_unset o) = false ->
               bad_unset o = false).
  { intros [K|K]; unfold bad_unset; rewrite K; reflexivity. }
  destruct (bad_genid o) eqn:Eg; [|destruct (bad_unset o) eqn:Eu];
    (split; [split|split; [|split]]);
    try exact Hk;
    try (intros; reflexivity);
    try (intros; discriminate);
    try (intros (c & n & K); discriminate);
    try (intros [K1 K2]; discriminate).
  - intros _. auto.
  - intros _. eauto.
Qed.

(** X2: the cookie name the middleware uses is never empty: it is
    [options.name] if that is a non-empty string, else [options.key] if
    that is one, else ['connect.sid']. *)
Theorem X2_cookie_name_never_empty (gsid : Request -> string) (o : Options)
  (cfg : Config) (notes : list string) :
  session gsid o = inr (cfg, notes) ->
  name cfg <> EmptyString
  /\ (optstr_truthy (o_name o) = true -> Some (name cfg) = o_name o)
  /\ (optstr_truthy (o_name o) = false -> optstr_truthy (o_key o) = true ->
      Some (name cfg) = o_key o)
  /\ (optstr_truthy (o_name o) = false -> optstr_truthy (o_key o) = false ->
      name cfg = "connect.sid").
Proof.
  rewrite session_unfold.
  destruct (bad_genid o); [discriminate|].
  destruct (bad_unset o); [discriminate|].
  intros H. injection H as <- _. simpl.
  unfold optstr_or, optstr_truthy.
  destruct (o_name o) as [n|], (o_key o) as [k|];
    try destruct (n =? EmptyString) eqn:En;
    try destruct (k =? EmptyString) eqn:Ek;
    simpl; repeat split; try discriminate; try reflexivity;
    try (intros E; rewrite E in *; discriminate).
Qed.

Lemma X2_witness :
  session example_genid (options_explicit (Some EmptyString) (JStr "keep"))
  = inr ({| name := "sid"; cookieOptions := no_cookie_options;
            trustProxy := JUndefined; rollingSessions := JBool false;
            resaveSession := JNull; saveUninitializedSession := JBool false;
            generateId := example_genid; unsetDestroy := false |}, [])
  /\ "sid" <> EmptyString.
Proof.
  split; [reflexivity|].
  exact (proj1 (X2_cookie_name_never_empty example_genid
                  (options_explicit (Some EmptyString) (JStr "keep"))
                  _ [] eq_refl)).
Defined.

(** X3: only an option that is [undefined] is defaulted.  A deprecation
    notice is issued for [resave] exactly when it is [undefined], and
    likewise for [saveUninitialized]; any other value, [null] and [false]
    included, is kept as it is. *)
Theorem X3_only_undefined_is_defaulted (gsid : Request -> string)
  (o : Options) (cfg : Config) (notes : list string) :
  session gsid o = inr (cfg, notes) ->
  (In resave_notice notes <-> o_resave o = JUndefined)
  /\ (In saveUninitialized_notice notes <->
      o_saveUninitialized o = JUndefined)
  /\ (o_resave o <> JUndefined -> resaveSession cfg = o_resave o)
  /\ (o_saveUninitialized o <> JUndefined ->
      saveUninitializedSession cfg = o_saveUninitialized o).
Proof.
  rewrite session_unfold.
  destruct (bad_genid o); [discriminate|].
  destruct (bad_unset o); [discriminate|].
  intros H. injection H as <- <-. simpl.
  assert (Hne : resave_notice <> saveUninitialized_notice) by discriminate.
  destruct (o_resave o), (o_saveUninitialized o); simpl;
    repeat split; try congruence; try tauto;
    intros; repeat match goal with
                   | H : _ \/ _ |- _ => destruct H
                   | H : False |- _ => destruct H
                   end; try congruence; auto.
Qed.

Lemma X3_witness :
  let cfg := {| name := "sid"; cookieOptions := no_cookie_options;
                trustProxy := JUndefined; rollingSessions := JBool false;
                resaveSession := JNull;
                saveUninitializedSession := JBool false;
                generateId := example_genid; unsetDestroy := true |} in
  ~ In resave_notice []
  /\ resaveSession cfg = JNull
  /\ truthy (resaveSession cfg) = false.
Proof.
  intros cfg.
  destruct (X3_only_undefined_is_defaulted example_genid
              (options_explicit None (JStr "destroy")) cfg [] eq_refl)
    as (Hn & _ & Hr & _).
  split; [intros []|]. split; [apply Hr; discriminate|reflexivity].
Defined.

(* ------------------------------------------------------------------ *)
(** ** Further properties: [hash] *)

Lemma serialize_property_object (key : string)
  (props : list (string * jsval)) :
  ("cookie" =? key) = false ->
  Json.serialize_property key (JObj props) =
  Some ("{"
        ++ Json.join "," (Json.members (Json.serialize_props props))
        ++ "}")%string.
Proof.
  intros E. simpl. rewrite E. do 4 f_equal.
  induction props as [|[k e] rest IH]; simpl; [reflexivity|].
  now rewrite IH.
Qed.

Lemma serialize_property_array (key : string) (elems : list jsval) :
  ("cookie" =? key) = false ->
  Json.serialize_property key (JArr elems) =
  Some ("[" ++ Json.join "," (array_elements 0 elems) ++ "]")%string.
Proof.
  intros E. simpl. rewrite E. reflexivity.
Qed.

Lemma serialize_props_app (l1 l2 : list (string * jsval)) :
  Json.members (Json.serialize_props (l1 ++ l2)) =
  Json.members (Json.serialize_props l1)
  ++ Json.members (Json.serialize_props l2).
Proof.
  induction l1 as [|[k e] rest IH]; simpl; [reflexivity|].
  destruct (Json.serialize_property k e); simpl; now rewrite IH.
Qed.

(** [hash] sees a property only through its serialisation. *)
Lemma hash_property_congruence (pre post : list (string * jsval))
  (k : string) (v1 v2 : jsval) :
  Json.serialize_property k v1 = Json.serialize_property k v2 ->
  hash (JObj (pre ++ (k, v1) :: post)) = hash (JObj (pre ++ (k, v2) :: post)).
Proof.
  intros E. unfold hash. rewrite !stringify_object, !serialize_props_app.
  simpl. now rewrite E.
Qed.

(** Induction on values that reaches into arrays and objects. *)
Lemma jsval_nested_ind (P : jsval -> Prop) :
  P JUndefined -> P JNull -> (forall b, P (JBool b)) ->
  (forall z, P (JNum z)) -> (forall s, P (JStr s)) ->
  (forall elems, Forall P elems -> P (JArr elems)) ->
  (forall props, Forall (fun ke => P (snd ke)) props -> P (JObj props)) ->
  forall v, P v.
Proof.
  intros Hu Hn Hb Hz Hs Ha Ho.
  fix IH 1. intros [| |b|z|s|elems|props].
  - exact Hu.
  - exact Hn.
  - apply Hb.
  - apply Hz.
  - apply Hs.
  - exact (Ha elems
             ((fix go (l : list jsval) : Forall P l :=
                 match l with
                 | [] => Forall_nil P
                 | e :: rest => Forall_cons e (IH e) (go rest)
                 end) elems)).
  - exact (Ho props
             ((fix go (l : list (string * jsval))
                 : Forall (fun ke => P (snd ke)) l :=
                 match l with
                 | [] => Forall_nil _
                 | ke :: rest => Forall_cons ke (IH (snd ke)) (go rest)
                 end) props)).
Qed.

Lemma strip_cookie_object (props : list (string * jsval)) :
  strip_cookie (JObj props) = JObj (strip_props props).
Proof.
  reflexivity.
Qed.

(** Stripping the [cookie] properties at every depth does not change how a
    value is serialised. *)
Lemma serialize_property_strip_cookie (v : jsval) :
  forall key,
    Json.serialize_property key (strip_cookie v) =
    Json.serialize_property key v.
Proof.
  induction v as [| |b|z|s|elems IH|props IH] using jsval_nested_ind;
    intros key; try reflexivity.
  - destruct ("cookie" =? key) eqn:E.
    + apply String.eqb_eq in E. subst key.
      now rewrite !serialize_property_cookie.
    + change (strip_cookie (JArr elems)) with (JArr (map strip_cookie elems)).
      rewrite !serialize_property_array by exact E. do 4 f_equal.
      generalize 0.
      induction IH as [|e rest He _ IHl]; intros i; simpl; [reflexivity|].
      now rewrite He, IHl.
  - destruct ("cookie" =? key) eqn:E.
    + apply String.eqb_eq in E. subst key.
      now rewrite !serialize_property_cookie.
    + rewrite strip_cookie_object.
      rewrite !serialize_property_object by exact E. do 4 f_equal.
      induction IH as [|[k e] rest He _ IHl]; simpl; [reflexivity|].
      destruct ("cookie" =? k) eqn:Ek.
      * apply String.eqb_eq in Ek. subst k.
        rewrite serialize_property_cookie. exact IHl.
      * simpl in *. rewrite He.
        destruct (Json.serialize_property k e); simpl; now rewrite IHl.
Qed.

(** X4: [hash] is blind to every property named [cookie], not only to the
    session's own: two values that agree once such properties are removed
    at every depth (inside nested objects and arrays too) have the same
    fingerprint.  A change to [data.user.cookie] is therefore never seen as
    a modification. *)
Theorem X4_hash_blind_to_nested_cookie (v1 v2 : jsval) :
  strip_cookie v1 = strip_cookie v2 -> hash v1 = hash v2.
Proof.
  intros E. unfold hash, Json.stringify.
  rewrite <- (serialize_property_strip_cookie v1),
    <- (serialize_property_strip_cookie v2).
  now rewrite E.
Qed.

Lemma X4_witness :
  let s1 := JObj [("cookie", JNull);
                  ("user", JObj [("cookie", JStr "oat"); ("n", JNum 2)]);
                  ("seen", JArr [JObj [("cookie", JNum 1)]])] in
  let s2 := JObj [("user", JObj [("n", JNum 2); ("cookie", JStr "rye")]);
                  ("seen", JArr [JObj []])] in
  hash s1 = hash s2.
Proof.
  intros s1 s2. apply (X4_hash_blind_to_nested_cookie s1 s2). reflexivity.
Defined.

(** X5: a property whose value is [undefined] does not count: the
    fingerprint of an object is the same with and without it, wherever it
    sits.  Setting a session property to [undefined] is not seen as a
    modification. *)
Theorem X5_hash_omits_undefined_properties
  (pre post : list (string * jsval)) (k : string) :
  hash (JObj (pre ++ (k, JUndefined) :: post)) = hash (JObj (pre ++ post)).
Proof.
  unfold hash. rewrite !stringify_object, !serialize_props_app.
  assert (E : Json.serialize_property k JUndefined = None).
  { simpl. now destruct ("cookie" =? k). }
  cbn [Json.serialize_props map fst snd]. rewrite E. reflexivity.
Qed.

Lemma array_elements_app (i : nat) (l1 l2 : list jsval) :
  array_elements i (l1 ++ l2) =
  array_elements i l1 ++ array_elements (List.length l1 + i) l2.
Proof.
  revert i. induction l1 as [|e rest IH]; intros i; simpl; [reflexivity|].
  rewrite IH. do 3 f_equal. lia.
Qed.

(** X6: inside an array [undefined] is written [null]: two objects that
    differ only in that an array element is [undefined] in the one and
    [null] in the other have the same fingerprint. *)
Theorem X6_hash_undefined_array_element_is_null
  (pre post : list (string * jsval)) (k : string) (a1 a2 : list jsval) :
  hash (JObj (pre ++ (k, JArr (a1 ++ JUndefined :: a2)) :: post)) =
  hash (JObj (pre ++ (k, JArr (a1 ++ JNull :: a2)) :: post)).
Proof.
  apply hash_property_congruence.
  destruct ("cookie" =? k) eqn:E.
  - apply String.eqb_eq in E. subst k. now rewrite !serialize_property_cookie.
  - rewrite !serialize_property_array by exact E.
    rewrite !array_elements_app. simpl.
    now destruct ("cookie" =? Json.index_key (List.length a1 + 0)).
Qed.

(** *** The range of the checksum *)

Local Open Scope Z_scope.

Lemma lxor_below_2_32 (a b : Z) :
  0 <= a < 2 ^ 32 -> 0 <= b < 2 ^ 32 -> 0 <= Z.lxor a b < 2 ^ 32.
Proof.
  intros Ha Hb.
  assert (Hlog : forall x, 0 <= x < 2 ^ 32 -> Z.log2 x < 32).
  { intros x Hx. destruct (Z.eq_dec x 0) as [->|Hn]; [reflexivity|].
    apply Z.log2_lt_pow2; lia. }
  assert (H0 : 0 <= Z.lxor a b) by (apply Z.lxor_nonneg; lia).
  split; [exact H0|].
  destruct (Z.eq_dec (Z.lxor a b) 0) as [->|Hn]; [reflexivity|].
  apply Z.log2_lt_pow2; [lia|].
  pose proof (Z.log2_lxor a b (proj1 Ha) (proj1 Hb)).
  pose proof (Hlog a Ha). pose proof (Hlog b Hb). lia.
Qed.

Lemma shiftr_below_2_32 (c k : Z) :
  0 <= k -> 0 <= c < 2 ^ 32 -> 0 <= Z.shiftr c k < 2 ^ 32.
Proof.
  intros Hk Hc. rewrite Z.shiftr_div_pow2 by lia.
  assert (0 < 2 ^ k) by (apply Z.pow_pos_nonneg; lia).
  split; [apply Z.div_pos; lia|].
  apply Z.le_lt_trans with c; [|lia].
  apply Z.div_le_upper_bound; nia.
Qed.

Lemma table_rounds_below_2_32 (k : nat) (c : Z) :
  0 <= c < 2 ^ 32 -> 0 <= Crc32.table_rounds k c < 2 ^ 32.
Proof.
  revert c.
  induction k as [|k IH]; intros c Hc; cbn [Crc32.table_rounds];
    [exact Hc|].
  apply IH. destruct (Z.testbit c 0).
  - apply lxor_below_2_32; [lia|]. apply shiftr_below_2_32; lia.
  - apply shiftr_below_2_32; lia.
Qed.

Lemma step_below_2_32 (crc byte : Z) :
  0 <= crc < 2 ^ 32 -> 0 <= Crc32.step crc byte < 2 ^ 32.
Proof.
  intros Hc. unfold Crc32.step, Crc32.table_entry.
  apply lxor_below_2_32; [|apply shiftr_below_2_32; lia].
  apply table_rounds_below_2_32.
  change 0xFF with (Z.ones 8). rewrite Z.land_ones by lia.
  pose proof (Z.mod_pos_bound (Z.lxor crc byte) (2 ^ 8)). lia.
Qed.

Lemma unsigned_below_2_32 (s : string) : 0 <= Crc32.unsigned s < 2 ^ 32.
Proof.
  unfold Crc32.unsigned.
  apply lxor_below_2_32; [|unfold Crc32.mask32; lia].
  assert (H : forall l crc, 0 <= crc < 2 ^ 32 ->
                            0 <= fold_left Crc32.step l crc < 2 ^ 32).
  { induction l as [|b l IH]; intros crc Hc; cbn [fold_left]; [exact Hc|].
    apply IH. now apply step_below_2_32. }
  apply H. unfold Crc32.mask32. lia.
Qed.

(** X7: whenever [hash] returns, the fingerprint is a signed 32-bit
    integer, whatever the size of the session. *)
Theorem X7_hash_is_signed_32_bit (v : jsval) (h : Z) :
  hash v = Some h -> - 2 ^ 31 <= h < 2 ^ 31.
Proof.
  unfold hash. destruct (Json.stringify v) as [s|]; [|discriminate].
  simpl. intros E. injection E as <-.
  unfold Crc32.signed.
  pose proof (unsigned_below_2_32 s).
  destruct (Crc32.unsigned s <? 2 ^ 31) eqn:Elt.
  - apply Z.ltb_lt in Elt. lia.
  - apply Z.ltb_ge in Elt. lia.
Qed.

Lemma X7_witness :
  hash (session_obj session_ab) = Some (-817770877)
  /\ - 2 ^ 31 <= -817770877 < 2 ^ 31.
Proof.
  split; [vm_compute; reflexivity|].
  apply (X7_hash_is_signed_32_bit (session_obj session_ab)).
  vm_compute. reflexivity.
Defined.

Local Close Scope Z_scope.

(* ------------------------------------------------------------------ *)
(** ** Further properties: [issecure] *)

Lemma optstr_or_empty (x : string) : optstr_or (Some x) EmptyString = x.
Proof.
  unfold optstr_or. destruct (x =? EmptyString) eqn:E; [|reflexivity].
  apply String.eqb_eq in E. now subst x.
Qed.

(** X8: the [x-forwarded-proto] header is consulted only when the [proxy]
    option is exactly [true]: for every other value ([false], [undefined],
    a truthy non-boolean such as [1]), the verdict of [issecure] does not
    depend on the header. *)
Theorem X8_forwarded_header_needs_explicit_trust (r : Request)
  (trustProxy : jsval) (h : option string) :
  trustProxy <> JBool true ->
  issecure (with_forwarded h r) trustProxy = issecure r trustProxy.
Proof.
  intros Hn. unfold issecure.
  change (encrypted (with_forwarded h r)) with (encrypted r).
  change (req_secure (with_forwarded h r)) with (req_secure r).
  assert (E : strict_eq_bool trustProxy true = false).
  { destruct trustProxy as [| |[|]| | | |]; try reflexivity.
    now destruct Hn. }
  rewrite E. simpl.
  destruct (encrypted r), (strict_eq_bool trustProxy false); reflexivity.
Qed.

Lemma X8_witness :
  issecure (with_forwarded (Some "https") (req (incoming None))) (JBool true)
  = true
  /\ issecure (with_forwarded (Some "https") (req (incoming None))) (JNum 1)
     = false.
Proof.
  split; [reflexivity|].
  assert (Hn : JNum 1 <> JBool true) by discriminate.
  rewrite (X8_forwarded_header_needs_explicit_trust (req (incoming None))
             (JNum 1) (Some "https") Hn).
  reflexivity.
Defined.

Lemma index_of_char_app (c : ascii) (h rest : string) :
  index_of_char c h = None ->
  index_of_char c (h ++ String c rest)%string = Some (String.length h).
Proof.
  induction h as [|d h IH]; simpl.
  - now rewrite Ascii.eqb_refl.
  - destruct (Ascii.eqb c d); [discriminate|].
    destruct (index_of_char c h); [discriminate|].
    intros _. now rewrite IH.
Qed.

Lemma substr0_app (h rest : string) :
  substr0 (String.length h) (h ++ rest)%string = h.
Proof.
  unfold substr0. induction h as [|d h IH]; simpl.
  - now destruct rest.
  - now rewrite IH.
Qed.

(** X9: under [proxy: true] and without an encrypted connection, only the
    first entry of a comma-separated [x-forwarded-proto] counts: whatever
    follows the first comma does not change the verdict.  An absent or
    empty header is not secure. *)
Theorem X9_only_first_forwarded_entry_counts (r : Request)
  (h rest : string) :
  index_of_char "," h = None ->
  issecure (with_forwarded (Some (h ++ String "," rest)%string) r)
    (JBool true)
  = issecure (with_forwarded (Some h) r) (JBool true)
  /\ (encrypted r = false ->
      issecure (with_forwarded None r) (JBool true) = false
      /\ issecure (with_forwarded (Some EmptyString) r) (JBool true) = false).
Proof.
  intros Hc. unfold issecure.
  change (encrypted (with_forwarded ?x r)) with (encrypted r).
  destruct (encrypted r); [split; [reflexivity|discriminate]|].
  split; [|intros _; split; reflexivity].
  cbn [strict_eq_bool Bool.eqb negb x_forwarded_proto with_forwarded].
  rewrite !optstr_or_empty, Hc.
  now rewrite (index_of_char_app "," h rest Hc), substr0_app.
Qed.

Lemma X9_witness :
  index_of_char "," "http" = None
  /\ issecure
       (with_forwarded (Some "http,https") (req world_forwarded_https))
       (JBool true)
     = issecure (with_forwarded (Some "http") (req world_forwarded_https))
         (JBool true)
  /\ issecure (with_forwarded (Some "http") (req world_forwarded_https))
       (JBool true) = false.
Proof.
  split; [reflexivity|]. split; [|reflexivity].
  exact (proj1 (X9_only_first_forwarded_entry_counts
                  (req world_forwarded_https) "http" "https" eq_refl)).
Defined.

Lemma lower_char_comma (c : ascii) :
  Ascii.eqb "," (lower_char c) = Ascii.eqb "," c.
Proof. destruct c as [[] [] [] [] [] [] [] []]; reflexivity. Qed.

Lemma lower_char_idem (c : ascii) : lower_char (lower_char c) = lower_char c.
Proof. destruct c as [[] [] [] [] [] [] [] []]; reflexivity. Qed.

Lemma toLowerCase_idem (s : string) :
  toLowerCase (toLowerCase s) = toLowerCase s.
Proof.
  induction s as [|c s IH]; cbn [toLowerCase]; [reflexivity|].
  now rewrite lower_char_idem, IH.
Qed.

Lemma index_of_char_lower (s : string) :
  index_of_char "," (toLowerCase s) = index_of_char "," s.
Proof.
  induction s as [|c s IH]; cbn [index_of_char toLowerCase]; [reflexivity|].
  now rewrite lower_char_comma, IH.
Qed.

Lemma substring_lower (s : string) :
  forall n m,
    String.substring n m (toLowerCase s) =
    toLowerCase (String.substring n m s).
Proof.
  induction s as [|c s IH]; intros [|n] [|m];
    cbn [String.substring toLowerCase]; try reflexivity; now rewrite IH.
Qed.

(** The verdict on a header is the verdict on its lower-case form. *)
Lemma issecure_lower (r : Request) (trustProxy : jsval) (h : string) :
  issecure (with_forwarded (Some (toLowerCase h)) r) trustProxy
  = issecure (with_forwarded (Some h) r) trustProxy.
Proof.
  unfold issecure.
  change (encrypted (with_forwarded ?x r)) with (encrypted r).
  change (req_secure (with_forwarded ?x r)) with (req_secure r).
  cbn [x_forwarded_proto with_forwarded].
  rewrite !optstr_or_empty, index_of_char_lower.
  unfold substr0.
  destruct (index_of_char "," h) as [index|];
    rewrite ?substring_lower, !toLowerCase_idem; reflexivity.
Qed.

(** X10: [issecure] does not look at the letter case of the forwarded
    protocol: two headers that are equal once lower-cased get the same
    verdict, under every [proxy] setting. *)
Theorem X10_forwarded_header_case_insensitive (r : Request)
  (trustProxy : jsval) (h1 h2 : string) :
  toLowerCase h1 = toLowerCase h2 ->
  issecure (with_forwarded (Some h1) r) trustProxy
  = issecure (with_forwarded (Some h2) r) trustProxy.
Proof.
  intros E.
  rewrite <- (issecure_lower r trustProxy h1),
    <- (issecure_lower r trustProxy h2).
  now rewrite E.
Qed.

Lemma X10_witness :
  issecure (with_forwarded (Some "HttpS") (req world_forwarded_https))
    (JBool true) = true.
Proof.
  rewrite (X10_forwarded_header_case_insensitive
             (req world_forwarded_https) (JBool true) "HttpS" "https"
             eq_refl).
  reflexivity.
Defined.

(* ------------------------------------------------------------------ *)
(** ** Further properties: the whole of finalization *)

Lemma send_headers_frame (cfg : Config) (w : World) :
  frame (send_headers cfg w) = frame w.
Proof.
  unfold send_headers.
  destruct (headersSent w); [reflexivity|].
  destruct (hooked w); simpl; [|reflexivity].
  apply on_headers_fields.
Qed.

Lemma store_callback_no_frame (cfg : Config) (err : option StoreErr)
  (w : World) :
  frame w = None -> store_callback cfg err w = w.
Proof. unfold store_callback. now intros ->. Qed.

Lemma header_events_ended (cfg : Config) (b : bool) (w : World) :
  header_events cfg (with_ended b w) = header_events cfg w.
Proof. reflexivity. Qed.

(** The trace of a finalization, branch by branch. *)
Lemma finalize_trace (now : Z) (cfg : Config) (t : CbTiming)
  (err : option StoreErr) (chunk encoding : option string) (w : World) :
  ended w = false ->
  frame w = None ->
  trace (finalize now cfg t err chunk encoding w) =
  trace w ++ finalize_events now cfg t err chunk encoding w.
Proof.
  intros He Hf. unfold finalize, finalize_events.
  destruct (truthy (shouldDestroy cfg w)) eqn:Ed.
  - destruct (res_end_destroy now cfg t chunk encoding w He Ed)
      as (Ht & Hh & _ & Hfr).
    unfold settle_events. destruct t as [e0|]; [exact Ht|].
    rewrite (trace_store_callback_later cfg err _ _ Hfr eq_refl).
    rewrite (header_events_sent cfg _ Hh), Ht.
    now rewrite <- !app_assoc.
  - destruct (req_session (req w)) as [sess|] eqn:Es.
    + destruct (truthy (shouldSave cfg w sess)) eqn:Esv.
      * destruct (res_end_save now cfg t chunk encoding w sess He Es Esv)
          as (Ht & Hh & _ & Hfr).
        unfold settle_events. destruct t as [e0|]; [exact Ht|].
        rewrite (trace_store_callback_later cfg err _ _ Hfr eq_refl).
        rewrite (header_events_sent cfg _ Hh), Ht.
        now rewrite <- !app_assoc.
      * rewrite (res_end_no_save now cfg t chunk encoding w sess He Es Esv).
        cbn [snd].
        assert (Hfr : frame (end_call cfg (Some (chunk_or_empty chunk))
                               encoding (with_ended true (touched now w sess)))
                      = None).
        { unfold end_call. simpl. now rewrite send_headers_frame. }
        assert (Ht : trace (end_call cfg (Some (chunk_or_empty chunk))
                              encoding (with_ended true (touched now w sess)))
                     = trace w ++ header_events cfg (touched now w sess)
                       ++ [EvEnd (Some (chunk_or_empty chunk)) encoding]).
        { now rewrite trace_end_call, header_events_ended. }
        destruct t; [exact Ht|].
        now rewrite (store_callback_no_frame cfg err _ Hfr).
    + rewrite (res_end_no_session now cfg t chunk encoding w He Ed Es).
      cbn [snd].
      assert (Hfr : frame (end_call cfg (Some (chunk_or_empty chunk)) encoding
                             (emit (EvDebug "no session") (with_ended true w)))
                    = None).
      { unfold end_call. simpl. now rewrite send_headers_frame. }
      assert (Ht : trace (end_call cfg (Some (chunk_or_empty chunk)) encoding
                            (emit (EvDebug "no session")
                               (with_ended true w)))
                   = trace w ++ [EvDebug "no session"]
                     ++ header_events cfg w
                     ++ [EvEnd (Some (chunk_or_empty chunk)) encoding]).
      { rewrite trace_end_call. simpl. rewrite <- app_assoc. simpl.
        repeat f_equal. }
      destruct t; [exact Ht|].
      now rewrite (store_callback_no_frame cfg err _ Hfr).
Qed.

Lemma only_error_events (kind : Event -> bool) (err : option StoreErr) :
  (forall s, kind (EvConsoleError s) = false) ->
  only kind (error_events err) = [].
Proof. intros H. destruct err; simpl; [now rewrite H|reflexivity]. Qed.

Lemma only_settle_events (kind : Event -> bool) (cfg : Config)
  (done : string) (t : CbTiming) (err : option StoreErr) (chunk : string)
  (encoding : option string) (w : World) :
  (forall m, kind (EvDebug m) = false) ->
  (forall s, kind (EvConsoleError s) = false) ->
  (forall c e, kind (EvEnd c e) = false) ->
  (forall c e, kind (EvWrite c e) = false) ->
  only kind (settle_events cfg done t err chunk encoding w) =
  only kind (header_events cfg w).
Proof.
  intros Hd Hc He Hw. unfold settle_events, commit_events.
  destruct t as [e0|]; rewrite !only_app, ?(only_error_events kind) by auto;
    simpl; rewrite ?Hd, ?He, ?Hw; simpl; now rewrite ?app_nil_r.
Qed.

Lemma only_cookie_header_events (cfg : Config) (w : World) :
  only is_set_cookie (header_events cfg w) = cookie_events cfg w.
Proof.
  unfold header_events, listener_events, cookie_events.
  destruct (headersSent w); [reflexivity|].
  destruct (hooked w); [|reflexivity].
  destruct (req_session (req w)) as [sess|]; [|reflexivity].
  destruct (secure (cookie sess) && negb (issecure (req w) (trustProxy cfg)));
    [reflexivity|].
  now destruct (truthy (shouldSetCookie cfg w sess)).
Qed.

(** The store calls of a finalization. *)
Lemma finalize_store_calls (now : Z) (cfg : Config)
  (t : CbTiming) (err : option StoreErr) (chunk encoding : option string)
  (w : World) :
  ended w = false ->
  frame w = None ->
  let w' := finalize now cfg t err chunk encoding w in
  only is_store_destroy (trace w') =
    only is_store_destroy (trace w)
    ++ (if optstr_truthy (sessionID (req w)) && unsetDestroy cfg
           && match req_session (req w) with None => true | Some _ => false end
        then [EvStoreDestroy (sessionID (req w))] else [])
  /\ only is_store_set (trace w') =
     only is_store_set (trace w)
     ++ match req_session (req w) with
        | Some sess =>
            if truthy (shouldSave cfg w sess)
            then [EvStoreSet (id sess) (resetMaxAge now sess)] else []
        | None => []
        end.
Proof.
  intros He Hf w'. subst w'.
  rewrite (finalize_trace now cfg t err chunk encoding w He Hf).
  rewrite !only_app. unfold finalize_events.
  rewrite <- shouldDestroy_truthy.
  destruct (truthy (shouldDestroy cfg w)) eqn:Ed.
  - assert (Es : req_session (req w) = None).
    { rewrite shouldDestroy_truthy in Ed.
      destruct (req_session (req w)); [|reflexivity].
      now rewrite andb_false_r in Ed. }
    rewrite Es, !only_app, !only_settle_events by reflexivity.
    rewrite (only_header_events _ cfg w silent_store_destroy),
      (only_header_events _ cfg w silent_store_set).
    split; reflexivity.
  - destruct (req_session (req w)) as [sess|] eqn:Es.
    + destruct (truthy (shouldSave cfg w sess)).
      * rewrite !only_app, !only_settle_events by reflexivity.
        rewrite (only_header_events _ cfg _ silent_store_destroy),
          (only_header_events _ cfg _ silent_store_set).
        split; reflexivity.
      * rewrite !only_app.
        rewrite (only_header_events _ cfg _ silent_store_destroy),
          (only_header_events _ cfg _ silent_store_set).
        split; reflexivity.
    + rewrite !only_app.
      rewrite (only_header_events _ cfg _ silent_store_destroy),
        (only_header_events _ cfg _ silent_store_set).
      split; reflexivity.
Qed.

(** X11: a finalization calls the store at most once.  [store.destroy] is
    called, with the id of the request, exactly when that id is truthy,
    [unset] is ['destroy'] and no session is attached; [store.set] is called
    exactly when a session is attached and [shouldSave] is truthy.  So a
    request without an id, or under [unset: 'keep'], never destroys, and a
    request without a session never saves. *)
Theorem X11_store_calls_of_a_finalization (now : Z) (cfg : Config)
  (t : CbTiming) (err : option StoreErr) (chunk encoding : option string)
  (w : World) :
  ended w = false ->
  frame w = None ->
  let w' := finalize now cfg t err chunk encoding w in
  only is_store_destroy (trace w') =
    only is_store_destroy (trace w)
    ++ (if optstr_truthy (sessionID (req w)) && unsetDestroy cfg
           && match req_session (req w) with None => true | Some _ => false end
        then [EvStoreDestroy (sessionID (req w))] else [])
  /\ only is_store_set (trace w') =
     only is_store_set (trace w)
     ++ match req_session (req w) with
        | Some sess =>
            if truthy (shouldSave cfg w sess)
            then [EvStoreSet (id sess) (resetMaxAge now sess)] else []
        | None => []
        end.
Proof. apply finalize_store_calls. Qed.

Lemma X11_witness :
  let cfg := config_with JUndefined JUndefined (JStr "destroy") in
  let w := world_of (Some EmptyString) session_ab None in
  only is_store_destroy
    (trace (finalize 0 cfg CbLater None None None w)) = []
  /\ only is_store_set
       (trace (finalize 0 cfg CbLater None None None w)) = [].
Proof.
  intros cfg w.
  exact (X11_store_calls_of_a_finalization 0 cfg CbLater None None None w
           eq_refl eq_refl).
Defined.


Lemma string_append_assoc (a b c : string) :
  ((a ++ b) ++ c)%string = (a ++ (b ++ c))%string.
Proof. induction a as [|x a IH]; simpl; [reflexivity|now rewrite IH]. Qed.

Lemma body_app (l1 l2 : list Event) :
  body (l1 ++ l2) = (body l1 ++ body l2)%string.
Proof.
  induction l1 as [|e l1 IH]; simpl; [reflexivity|].
  destruct e as [m|s|e|sid|sid|sid sess|n v|c enc|[c|] enc];
    rewrite ?IH; try reflexivity; now rewrite string_append_assoc.
Qed.

Lemma append_empty_r (s : string) : (s ++ EmptyString)%string = s.
Proof. induction s as [|c s IH]; simpl; [reflexivity|now rewrite IH]. Qed.

Lemma body_header_events (cfg : Config) (w : World) :
  body (header_events cfg w) = EmptyString.
Proof.
  unfold header_events, listener_events.
  destruct (headersSent w); [reflexivity|].
  destruct (hooked w); [|reflexivity].
  destruct (req_session (req w)) as [sess|]; [|reflexivity].
  destruct (secure (cookie sess) && negb (issecure (req w) (trustProxy cfg)));
    [reflexivity|].
  now destruct (truthy (shouldSetCookie cfg w sess)).
Qed.

Lemma body_settle_events (cfg : Config) (done : string) (t : CbTiming)
  (err : option StoreErr) (chunk : string) (encoding : option string)
  (w : World) :
  body (settle_events cfg done t err chunk encoding w) = chunk.
Proof.
  unfold settle_events, commit_events.
  destruct t as [[e0|]|]; rewrite !body_app, ?body_header_events; simpl;
    try destruct err; simpl; now rewrite ?append_empty_r.
Qed.

Lemma ends_settle_events (cfg : Config) (done : string) (t : CbTiming)
  (err : option StoreErr) (chunk : string) (encoding : option string)
  (w : World) :
  exists c e,
    only is_end (settle_events cfg done t err chunk encoding w) = [EvEnd c e].
Proof.
  unfold settle_events, commit_events.
  destruct t as [e0|].
  - exists (Some chunk), encoding.
    rewrite !only_app, (only_header_events _ cfg w silent_end),
      only_error_events by reflexivity.
    reflexivity.
  - exists None, None.
    rewrite !only_app, (only_header_events _ cfg w silent_end),
      only_error_events by reflexivity.
    reflexivity.
Qed.

(** X12: every finalization completes the response exactly once and hands
    on exactly the chunk it was given: in each of its branches (destroy,
    no session, save, nothing to save), and whether the store runs its
    callback at once or later, the original [end] is called once, and the
    chunks passed to the original [write] and [end] add up to the chunk
    passed in (the empty string when it was [undefined]). *)
Theorem X12_finalization_completes_once (now : Z) (cfg : Config)
  (t : CbTiming) (err : option StoreErr) (chunk encoding : option string)
  (w : World) :
  ended w = false ->
  frame w = None ->
  let w' := finalize now cfg t err chunk encoding w in
  (exists c e, only is_end (trace w') = only is_end (trace w) ++ [EvEnd c e])
  /\ body (trace w') = (body (trace w) ++ chunk_or_empty chunk)%string.
Proof.
  intros He Hf w'. subst w'.
  rewrite (finalize_trace now cfg t err chunk encoding w He Hf).
  rewrite body_app. unfold finalize_events.
  destruct (truthy (shouldDestroy cfg w)).
  - destruct (ends_settle_events cfg "destroyed" t err (chunk_or_empty chunk)
                encoding w) as (c & e & Hend).
    split.
    + exists c, e. now rewrite !only_app, Hend.
    + rewrite body_app, body_settle_events. reflexivity.
  - destruct (req_session (req w)) as [sess|].
    + destruct (truthy (shouldSave cfg w sess)).
      * destruct (ends_settle_events cfg "saved" t err (chunk_or_empty chunk)
                    encoding (touched now w sess)) as (c & e & Hend).
        split.
        -- exists c, e. now rewrite !only_app, Hend.
        -- rewrite body_app, body_settle_events. reflexivity.
      * split.
        -- exists (Some (chunk_or_empty chunk)), encoding.
           now rewrite !only_app, (only_header_events _ cfg _ silent_end).
        -- rewrite body_app, body_header_events. simpl.
           now rewrite append_empty_r.
    + split.
      * exists (Some (chunk_or_empty chunk)), encoding.
        now rewrite !only_app, (only_header_events _ cfg _ silent_end).
      * rewrite !body_app, body_header_events. simpl.
        now rewrite append_empty_r.
Qed.

Lemma X12_witness :
  let cfg := config_with JUndefined JUndefined JUndefined in
  let w := world_of (Some "A") session_ab (Some session_ab) in
  body (trace (finalize 0 cfg CbLater (Some connection_lost) (Some "bye")
                 None w)) = "bye"
  /\ body (trace (finalize 0 cfg (CbSync None) None (Some "bye") None w))
     = "bye".
Proof.
  intros cfg w. split.
  - exact (proj2 (X12_finalization_completes_once 0 cfg CbLater
                    (Some connection_lost) (Some "bye") None w
                    eq_refl eq_refl)).
  - exact (proj2 (X12_finalization_completes_once 0 cfg (CbSync None)
                    None (Some "bye") None w eq_refl eq_refl)).
Defined.

(** What a finalization adds to the cookies set on the response. *)
Lemma finalize_cookies (now : Z) (cfg : Config) (t : CbTiming)
  (err : option StoreErr) (chunk encoding : option string) (w : World) :
  ended w = false ->
  frame w = None ->
  only is_set_cookie (trace (finalize now cfg t err chunk encoding w)) =
  only is_set_cookie (trace w)
  ++ match req_session (req w) with
     | Some sess => cookie_events cfg (touched now w sess)
     | None => []
     end.
Proof.
  intros He Hf.
  rewrite (finalize_trace now cfg t err chunk encoding w He Hf).
  rewrite only_app. f_equal. unfold finalize_events.
  destruct (truthy (shouldDestroy cfg w)) eqn:Ed.
  - assert (Es : req_session (req w) = None).
    { rewrite shouldDestroy_truthy in Ed.
      destruct (req_session (req w)); [|reflexivity].
      now rewrite andb_false_r in Ed. }
    rewrite Es, only_app, only_settle_events by reflexivity.
    now rewrite (no_cookie_without_session cfg w Es).
  - destruct (req_session (req w)) as [sess|] eqn:Es.
    + destruct (truthy (shouldSave cfg w sess)).
      * rewrite only_app, only_settle_events by reflexivity.
        now rewrite only_cookie_header_events.
      * rewrite only_app, only_cookie_header_events. simpl.
        now rewrite app_nil_r.
    + rewrite !only_app, (no_cookie_without_session cfg w Es). reflexivity.
Qed.

(** X13: a finalization sets the session cookie at most once, and not at
    all when the headers have already gone out or no session is
    attached. *)
Theorem X13_cookie_set_at_most_once (now : Z) (cfg : Config)
  (t : CbTiming) (err : option StoreErr) (chunk encoding : option string)
  (w : World) :
  ended w = false ->
  frame w = None ->
  exists added,
    only is_set_cookie (trace (finalize now cfg t err chunk encoding w)) =
    only is_set_cookie (trace w) ++ added
    /\ (List.length added <= 1)%nat
    /\ (headersSent w = true -> added = [])
    /\ (req_session (req w) = None -> added = []).
Proof.
  intros He Hf.
  rewrite (finalize_cookies now cfg t err chunk encoding w He Hf).
  eexists. split; [reflexivity|].
  destruct (req_session (req w)) as [sess|].
  - unfold cookie_events. simpl.
    destruct (headersSent w); [simpl; repeat split; auto; discriminate|].
    destruct (hooked w); [|simpl; repeat split; auto; discriminate].
    destruct (secure (cookie (resetMaxAge now sess))
              && negb (issecure
                         (set_req_session (Some (resetMaxAge now sess))
                            (req w)) (trustProxy cfg)));
      [simpl; repeat split; auto; discriminate|].
    destruct (truthy (shouldSetCookie cfg (touched now w sess)
                        (resetMaxAge now sess)));
      simpl; repeat split; auto; discriminate.
  - simpl. repeat split; auto.
Qed.

Lemma X13_witness :
  let cfg := config_with JUndefined (JBool true) JUndefined in
  let w := with_headersSent true
             (world_of (Some "A") session_ab (Some session_ab)) in
  only is_set_cookie
    (trace (finalize 0 cfg CbLater None None None w)) = [].
Proof.
  intros cfg w.
  destruct (X13_cookie_set_at_most_once 0 cfg CbLater None None None w
              eq_refl eq_refl) as (added & Ha & _ & Hs & _).
  rewrite Ha, (Hs eq_refl). reflexivity.
Defined.

Lemma cookie_events_touched (now : Z) (cfg : Config) (w : World)
  (sess : Session) :
  cookie_events cfg (touched now w sess) =
  if headersSent w then []
  else if hooked w then
    if secure (cookie (resetMaxAge now sess))
       && negb (issecure (req (touched now w sess)) (trustProxy cfg))
    then []
    else if truthy (shouldSetCookie cfg (touched now w sess)
                      (resetMaxAge now sess))
    then [EvSetCookie (name cfg) (sessionID (req w))]
    else []
  else [].
Proof. reflexivity. Qed.

Lemma isModified_touched (now : Z) (w : World) (sess : Session) :
  isModified (touched now w sess) (resetMaxAge now sess) = isModified w sess.
Proof.
  unfold isModified. simpl. now rewrite hash_resetMaxAge, resetMaxAge_id.
Qed.

(** X14: without [rolling], a finalization never sets the cookie of a
    session it does not also save: whenever a cookie is added to the
    response, the session is handed to [store.set]. *)
Theorem X14_no_cookie_without_save (now : Z) (cfg : Config)
  (t : CbTiming) (err : option StoreErr) (chunk encoding : option string)
  (w : World) (sess : Session) :
  ended w = false ->
  frame w = None ->
  req_session (req w) = Some sess ->
  truthy (rollingSessions cfg) = false ->
  let w' := finalize now cfg t err chunk encoding w in
  only is_set_cookie (trace w') <> only is_set_cookie (trace w) ->
  only is_store_set (trace w') =
  only is_store_set (trace w) ++ [EvStoreSet (id sess) (resetMaxAge now sess)].
Proof.
  intros He Hf Hs Hr w' Hc. subst w'.
  rewrite (finalize_cookies now cfg t err chunk encoding w He Hf), Hs in Hc.
  destruct (finalize_store_calls now cfg t err chunk encoding w He Hf)
    as (_ & Hset).
  cbv zeta in Hset. rewrite Hs in Hset. rewrite Hset. f_equal.
  assert (Hset' : truthy (shouldSetCookie cfg (touched now w sess)
                            (resetMaxAge now sess)) = true).
  { rewrite cookie_events_touched in Hc.
    destruct (headersSent w); [now rewrite app_nil_r in Hc|].
    destruct (hooked w); [|now rewrite app_nil_r in Hc].
    destruct (secure (cookie (resetMaxAge now sess))
              && negb (issecure (req (touched now w sess)) (trustProxy cfg)));
      [now rewrite app_nil_r in Hc|].
    destruct (truthy (shouldSetCookie cfg (touched now w sess)
                        (resetMaxAge now sess)));
      [reflexivity|now rewrite app_nil_r in Hc]. }
  assert (Hsave : truthy (shouldSave cfg w sess) = true).
  { rewrite truthy_shouldSave.
    unfold shouldSetCookie in Hset'. rewrite Hr in Hset'.
    rewrite isModified_touched in Hset'.
    change (cookieId (touched now w sess)) with (cookieId w) in Hset'.
    change (sessionID (req (touched now w sess)))
      with (sessionID (req w)) in Hset'.
    destruct (optstr_neq (cookieId w) (sessionID (req w))).
    - now rewrite truthy_js_or_bool in Hset'.
    - simpl in Hset'. apply andb_true_iff in Hset' as [_ Hm].
      rewrite Hm. apply orb_true_r. }
  now rewrite Hsave.
Qed.

Lemma X14_witness :
  let cfg := config_with JUndefined JUndefined JUndefined in
  let w0 := world_of None session_ab (Some session_ab) in
  let w := with_req (set_sessionID (Some "A") (req w0)) w0 in
  let w' := finalize 0 cfg CbLater None None None w in
  only is_set_cookie (trace w') = [EvSetCookie "connect.sid" (Some "A")]
  /\ only is_store_set (trace w') = [EvStoreSet (Some "A") session_ab].
Proof.
  intros cfg w0 w w'. split; [vm_compute; reflexivity|].
  assert (Hc : only is_set_cookie (trace w') <> only is_set_cookie (trace w))
    by (vm_compute; discriminate).
  exact (X14_no_cookie_without_save 0 cfg CbLater None None None w
           session_ab eq_refl eq_refl eq_refl eq_refl Hc).
Defined.


(** X15: for a request whose id is the one its cookie presented, and
    without [rolling], a finalization does not send the cookie again when
    the session is unmodified, nor when the cookie has no expiry (a
    browser-session cookie), however much the data changed. *)
Theorem X15_known_session_cookie_not_resent (now : Z) (cfg : Config)
  (t : CbTiming) (err : option StoreErr) (chunk encoding : option string)
  (w : World) (sess : Session) :
  ended w = false ->
  frame w = None ->
  req_session (req w) = Some sess ->
  cookieId w = sessionID (req w) ->
  truthy (rollingSessions cfg) = false ->
  isModified w sess = false
  \/ (originalMaxAge (cookie sess) = None /\ expires (cookie sess) = None) ->
  only is_set_cookie (trace (finalize now cfg t err chunk encoding w)) =
  only is_set_cookie (trace w).
Proof.
  intros He Hf Hs Hc Hr Hcase.
  rewrite (finalize_cookies now cfg t err chunk encoding w He Hf), Hs.
  rewrite cookie_events_touched.
  assert (E : truthy (shouldSetCookie cfg (touched now w sess)
                        (resetMaxAge now sess)) = false).
  { unfold shouldSetCookie. rewrite Hr, isModified_touched.
    change (cookieId (touched now w sess)) with (cookieId w).
    change (sessionID (req (touched now w sess))) with (sessionID (req w)).
    apply optstr_neq_false in Hc. rewrite Hc. simpl.
    destruct Hcase as [Hm|[Ho Hx]].
    - rewrite Hm. apply andb_false_r.
    - unfold resetMaxAge. rewrite Ho, Hx. reflexivity. }
  rewrite E.
  destruct (headersSent w), (hooked w); try apply app_nil_r.
  destruct (secure (cookie (resetMaxAge now sess))
            && negb (issecure (req (touched now w sess)) (trustProxy cfg)));
    apply app_nil_r.
Qed.

Lemma X15_witness :
  let w := world_of (Some "A") session_ab (Some session_ba) in
  isModified w session_ba = true
  /\ only is_set_cookie
       (trace (finalize 0 config_lazy CbLater None None None w)) = [].
Proof.
  intros w. split; [vm_compute; reflexivity|].
  exact (X15_known_session_cookie_not_resent 0 config_lazy CbLater None None
           None w session_ba eq_refl eq_refl eq_refl eq_refl eq_refl
           (or_intror (conj eq_refl eq_refl))).
Defined.

(* ------------------------------------------------------------------ *)
(** ** Further properties: the entry of the middleware *)

(** Past its three guards, the middleware reads the cookie and either
    generates a session or asks the store. *)
Lemma session_middleware_entered (now : Z) (cfg : Config)
  (reply : option GetReply) (w : World) :
  req_session (req w) = None ->
  in_scope cfg (req w) = true ->
  session_middleware now cfg true reply w =
  if optstr_truthy (cookies_get (req w) (name cfg)) then
    let w1 := emit (EvStoreGet (cookies_get (req w) (name cfg)))
                (emit (EvDebug "fetching %s") (entered cfg w)) in
    match reply with
    | Some r => store_get_callback now cfg r w1
    | None => w1
    end
  else
    next None
      (generate now cfg
         (emit (EvDebug "no SID sent, generating session") (entered cfg w))).
Proof.
  intros Hs Hp. unfold session_middleware, in_scope in *.
  rewrite Hs, Hp. simpl.
  unfold getcookie. simpl.
  now destruct (optstr_truthy (cookies_get (req w) (name cfg))).
Qed.

(** The three guards of the middleware. *)
Lemma middleware_bypass (now : Z) (cfg : Config) (storeReady : bool)
  (reply : option GetReply) (w : World) :
  (exists sess, req_session (req w) = Some sess)
  \/ storeReady = false \/ in_scope cfg (req w) = false ->
  let w' := session_middleware now cfg storeReady reply w in
  req w' = req w
  /\ hooked w' = hooked w
  /\ cookieId w' = cookieId w
  /\ originalHash w' = originalHash w
  /\ originalId w' = originalId w
  /\ ended w' = ended w
  /\ only is_next (trace w') = only is_next (trace w) ++ [EvNext None]
  /\ only is_store_get (trace w') = only is_store_get (trace w).
Proof.
  intros H. unfold session_middleware, in_scope in *.
  destruct (req_session (req w)) as [sess|] eqn:Es.
  - unfold next. cbn. rewrite !only_app. simpl.
    rewrite app_nil_r. tauto.
  - destruct H as [[sess H]|[H|H]]; [discriminate| |].
    + rewrite H. unfold next. cbn. rewrite !only_app. simpl.
      rewrite !app_nil_r. tauto.
    + destruct storeReady; simpl.
      * rewrite H. unfold next. cbn. rewrite !only_app. simpl.
        rewrite app_nil_r. tauto.
      * unfold next. cbn. rewrite !only_app. simpl.
        rewrite !app_nil_r. tauto.
Qed.

(** X16: when the request already has a session, or the store is not
    ready, or the path of the request is outside the path of the cookie,
    the middleware only calls [next()]: the request is left untouched, no
    hook is installed, the snapshots are not taken again and the store is
    not asked. *)
Theorem X16_middleware_bypass (now : Z) (cfg : Config) (storeReady : bool)
  (reply : option GetReply) (w : World) :
  (exists sess, req_session (req w) = Some sess)
  \/ storeReady = false \/ in_scope cfg (req w) = false ->
  let w' := session_middleware now cfg storeReady reply w in
  req w' = req w
  /\ hooked w' = hooked w
  /\ cookieId w' = cookieId w
  /\ originalHash w' = originalHash w
  /\ originalId w' = originalId w
  /\ ended w' = ended w
  /\ only is_next (trace w') = only is_next (trace w) ++ [EvNext None]
  /\ only is_store_get (trace w') = only is_store_get (trace w).
Proof. apply middleware_bypass. Qed.

Lemma X16_witness :
  let cfg := config_with JUndefined JUndefined JUndefined in
  let w := world_of (Some "A") session_ab (Some session_ba) in
  let w' := session_middleware 0 cfg true (Some GetNothing) w in
  originalHash w' = originalHash w
  /\ only is_store_get (trace w') = [].
Proof.
  intros cfg w w'.
  assert (H : (exists sess, req_session (req w) = Some sess)
              \/ true = false \/ in_scope cfg (req w) = false)
    by (left; exists session_ba; reflexivity).
  destruct (X16_middleware_bypass 0 cfg true (Some GetNothing) w H)
    as (_ & _ & _ & Hh & _ & _ & _ & Hg).
  split; [exact Hh|exact Hg].
Defined.

Lemma storeReady_after_last (signals : list StoreSignal) (s : StoreSignal) :
  storeReady_after (signals ++ [s]) =
  match s with Connect => true | Disconnect => false end.
Proof.
  unfold storeReady_after. rewrite fold_left_app. simpl. now destruct s.
Qed.

(** X17: [storeReady] is decided by the last signal of the store alone.
    From a [disconnect] until the next [connect] every request is passed
    on with [next()], untouched and without a call of the store; after a
    [connect] the store is ready again, however many signals came
    before. *)
Theorem X17_disconnect_bypasses_until_connect (now : Z) (cfg : Config)
  (signals : list StoreSignal) (reply : option GetReply) (w : World) :
  let w' := session_middleware now cfg
              (storeReady_after (signals ++ [Disconnect])) reply w in
  storeReady_after (signals ++ [Connect]) = true
  /\ req w' = req w
  /\ hooked w' = hooked w
  /\ only is_next (trace w') = only is_next (trace w) ++ [EvNext None]
  /\ only is_store_get (trace w') = only is_store_get (trace w).
Proof.
  rewrite !storeReady_after_last. intros w'.
  destruct (middleware_bypass now cfg false reply w
              (or_intror (or_introl eq_refl)))
    as (Hr & Hh & _ & _ & _ & _ & Hn & Hg).
  fold w' in Hr, Hh, Hn, Hg. tauto.
Qed.


Lemma optnum_neq_refl (a : option Z) : optnum_neq a a = false.
Proof. now apply optnum_neq_false. Qed.

Lemma optstr_neq_refl (a : option string) : optstr_neq a a = false.
Proof. now apply optstr_neq_false. Qed.

(** [issecure] reads the connection, [req.secure] and the forwarded
    protocol, and nothing else of the request. *)
Lemma issecure_same (r1 r2 : Request) (trustProxy : jsval) :
  connection r1 = connection r2 ->
  req_secure r1 = req_secure r2 ->
  x_forwarded_proto r1 = x_forwarded_proto r2 ->
  issecure r1 trustProxy = issecure r2 trustProxy.
Proof.
  intros Hc Hs Hx. unfold issecure, encrypted. now rewrite Hc, Hs, Hx.
Qed.

(** The world in which a request without a session cookie is handed on. *)
Lemma generated_world (now : Z) (cfg : Config) (reply : option GetReply)
  (w : World) :
  req_session (req w) = None ->
  in_scope cfg (req w) = true ->
  cookies_get (req w) (name cfg) = None ->
  let w1 := session_middleware now cfg true reply w in
  let fresh := fresh_session now cfg (req (entered cfg w)) in
  req_session (req w1) = Some fresh
  /\ sessionID (req w1) = id fresh
  /\ cookieId w1 = None
  /\ originalHash w1 = hash (session_obj fresh)
  /\ originalId w1 = id fresh
  /\ (headersSent w1 = headersSent w /\ hooked w1 = true
      /\ ended w1 = false /\ frame w1 = None)
  /\ (connection (req w1) = connection (req w)
      /\ req_secure (req w1) = req_secure (req w)
      /\ x_forwarded_proto (req w1) = x_forwarded_proto (req w))
  /\ trace w1 =
     trace w ++ [EvDebug "no SID sent, generating session"; EvNext None].
Proof.
  intros Hs Hp Hc w1 fresh. subst w1 fresh.
  rewrite (session_middleware_entered now cfg reply w Hs Hp), Hc.
  cbn [optstr_truthy].
  unfold next, generate, store_generate, fresh_session, entered, getcookie,
    new_Session.
  cbn -[hash new_Cookie]. rewrite Hc.
  rewrite <- app_assoc. cbn [app]. tauto.
Qed.

(** The world in which a request whose session was found is handed on. *)
Lemma hydrated_world (now : Z) (cfg : Config) (w : World) (sid : string)
  (rec : StoredSession) :
  req_session (req w) = None ->
  in_scope cfg (req w) = true ->
  cookies_get (req w) (name cfg) = Some sid ->
  sid <> EmptyString ->
  let w1 := session_middleware now cfg true (Some (GetFound rec)) w in
  let loaded := {| id := Some sid; cookie := st_cookie rec;
                   data := st_data rec |} in
  req_session (req w1) = Some loaded
  /\ sessionID (req w1) = Some sid
  /\ cookieId w1 = Some sid
  /\ originalHash w1 = hash (session_obj loaded)
  /\ originalId w1 = Some sid
  /\ (headersSent w1 = headersSent w /\ hooked w1 = true
      /\ ended w1 = false /\ frame w1 = None)
  /\ (connection (req w1) = connection (req w)
      /\ req_secure (req w1) = req_secure (req w)
      /\ x_forwarded_proto (req w1) = x_forwarded_proto (req w))
  /\ trace w1 =
     trace w ++ [EvDebug "fetching %s"; EvStoreGet (Some sid);
                 EvDebug "session found"; EvNext None].
Proof.
  intros Hs Hp Hc Hne w1 loaded. subst w1 loaded.
  rewrite (session_middleware_entered now cfg _ w Hs Hp), Hc.
  cbn [optstr_truthy]. apply String.eqb_neq in Hne. rewrite Hne.
  cbn [negb].
  unfold store_get_callback, next, createSession, entered, getcookie,
    stored_obj, session_obj.
  cbn -[hash]. rewrite Hc.
  rewrite <- !app_assoc. cbn [app]. tauto.
Qed.

(** X18: a request that brings no session cookie never reaches
    [store.get]; a fresh session is attached, and if the handler leaves it
    and the id alone, finalization saves it exactly when
    [saveUninitialized] is truthy and sets its cookie exactly when
    [rolling] or [saveUninitialized] is truthy (provided the headers have
    not gone out and a secure cookie is not held back). *)
Theorem X18_new_session_untouched (now1 now2 : Z) (cfg : Config)
  (reply : option GetReply) (t : CbTiming) (err : option StoreErr)
  (chunk encoding : option string) (w : World) :
  req_session (req w) = None ->
  in_scope cfg (req w) = true ->
  cookies_get (req w) (name cfg) = None ->
  let w1 := session_middleware now1 cfg true reply w in
  let fresh := fresh_session now1 cfg (req (entered cfg w)) in
  let w2 := finalize now2 cfg t err chunk encoding w1 in
  req_session (req w1) = Some fresh
  /\ only is_store_get (trace w1) = only is_store_get (trace w)
  /\ only is_store_set (trace w2) =
     only is_store_set (trace w)
     ++ (if truthy (saveUninitializedSession cfg)
         then [EvStoreSet (id fresh) (resetMaxAge now2 fresh)] else [])
  /\ only is_set_cookie (trace w2) =
     only is_set_cookie (trace w)
     ++ (if headersSent w then []
         else if secure (cookie fresh)
                 && negb (issecure (req w) (trustProxy cfg)) then []
         else if truthy (rollingSessions cfg)
                 || truthy (saveUninitializedSession cfg)
         then [EvSetCookie (name cfg) (id fresh)] else []).
Proof.
  intros Hs Hp Hc w1 fresh w2.
  destruct (generated_world now1 cfg reply w Hs Hp Hc)
    as (Hq & Hsid & Hcid & Hh & Hi & (Hhs & Hhk & He & Hf)
        & (Hcon & Hsec & Hx) & Ht).
  fold w1 fresh in Hq, Hsid, Hcid, Hh, Hi, Hhs, Hhk, He, Hf, Hcon, Hsec,
    Hx, Ht.
  assert (Hm : isModified w1 fresh = false).
  { unfold isModified. now rewrite Hh, Hi, optnum_neq_refl, optstr_neq_refl. }
  assert (Hneq : optstr_neq (cookieId w1) (sessionID (req w1)) = true).
  { rewrite Hcid, Hsid. reflexivity. }
  split; [exact Hq|]. split; [rewrite Ht, only_app; apply app_nil_r|].
  split.
  - destruct (finalize_store_calls now2 cfg t err chunk encoding w1 He Hf)
      as (_ & Hset).
    fold w2 in Hset. rewrite Hset, Hq, Ht, only_app. simpl.
    rewrite app_nil_r, truthy_shouldSave, Hneq, Hm, orb_false_r.
    reflexivity.
  - subst w2.
    rewrite (finalize_cookies now2 cfg t err chunk encoding w1 He Hf), Hq.
    assert (E : truthy (shouldSetCookie cfg (touched now2 w1 fresh)
                          (resetMaxAge now2 fresh))
                = truthy (rollingSessions cfg)
                  || truthy (saveUninitializedSession cfg)).
    { unfold shouldSetCookie. rewrite isModified_touched, Hm.
      change (cookieId (touched now2 w1 fresh)) with (cookieId w1).
      change (sessionID (req (touched now2 w1 fresh)))
        with (sessionID (req w1)).
      rewrite Hneq.
      destruct (truthy (rollingSessions cfg)); [reflexivity|].
      now rewrite truthy_js_or_bool, orb_false_r. }
    rewrite cookie_events_touched, Hhs, Hhk, resetMaxAge_secure, E, Hsid.
    rewrite (issecure_same (req (touched now2 w1 fresh)) (req w)
               (trustProxy cfg) Hcon Hsec Hx).
    rewrite Ht, only_app. simpl. now rewrite app_nil_r.
Qed.

Lemma X18_witness :
  let w1 := session_middleware 0 config_lazy true None (incoming None) in
  let w2 := finalize 5 config_lazy CbLater None (Some "ok") None w1 in
  only is_store_get (trace w1) = []
  /\ only is_store_set (trace w2) = []
  /\ only is_set_cookie (trace w2) = [].
Proof.
  intros w1 w2.
  destruct (X18_new_session_untouched 0 5 config_lazy None CbLater None
              (Some "ok") None (incoming None) eq_refl eq_refl eq_refl)
    as (_ & Hg & Hs & Hc).
  split; [exact Hg|]. split; [exact Hs|exact Hc].
Defined.

(** X19: a request whose cookie names a session the store finds is given
    that session under the id of the cookie, after one call of
    [store.get]; if the handler leaves the session and the id alone,
    finalization saves it exactly when [resave] is truthy and sets its
    cookie exactly when [rolling] is truthy (provided the headers have not
    gone out and a secure cookie is not held back). *)
Theorem X19_found_session_untouched (now1 now2 : Z) (cfg : Config)
  (t : CbTiming) (err : option StoreErr) (chunk encoding : option string)
  (w : World) (sid : string) (rec : StoredSession) :
  req_session (req w) = None ->
  in_scope cfg (req w) = true ->
  cookies_get (req w) (name cfg) = Some sid ->
  sid <> EmptyString ->
  let w1 := session_middleware now1 cfg true (Some (GetFound rec)) w in
  let loaded := {| id := Some sid; cookie := st_cookie rec;
                   data := st_data rec |} in
  let w2 := finalize now2 cfg t err chunk encoding w1 in
  req_session (req w1) = Some loaded
  /\ only is_store_get (trace w1) =
     only is_store_get (trace w) ++ [EvStoreGet (Some sid)]
  /\ only is_store_set (trace w2) =
     only is_store_set (trace w)
     ++ (if truthy (resaveSession cfg)
         then [EvStoreSet (Some sid) (resetMaxAge now2 loaded)] else [])
  /\ only is_set_cookie (trace w2) =
     only is_set_cookie (trace w)
     ++ (if headersSent w then []
         else if secure (st_cookie rec)
                 && negb (issecure (req w) (trustProxy cfg)) then []
         else if truthy (rollingSessions cfg)
         then [EvSetCookie (name cfg) (Some sid)] else []).
Proof.
  intros Hs Hp Hc Hne w1 loaded w2.
  destruct (hydrated_world now1 cfg w sid rec Hs Hp Hc Hne)
    as (Hq & Hsid & Hcid & Hh & Hi & (Hhs & Hhk & He & Hf)
        & (Hcon & Hsec & Hx) & Ht).
  fold w1 loaded in Hq, Hsid, Hcid, Hh, Hi, Hhs, Hhk, He, Hf, Hcon, Hsec,
    Hx, Ht.
  assert (Hm : isModified w1 loaded = false).
  { unfold isModified. rewrite Hh, Hi. cbn [id loaded].
    now rewrite optnum_neq_refl, optstr_neq_refl. }
  assert (Hneq : optstr_neq (cookieId w1) (sessionID (req w1)) = false).
  { rewrite Hcid, Hsid. apply optstr_neq_refl. }
  split; [exact Hq|].
  split; [rewrite Ht, only_app; reflexivity|].
  split.
  - destruct (finalize_store_calls now2 cfg t err chunk encoding w1 He Hf)
      as (_ & Hset).
    fold w2 in Hset. rewrite Hset, Hq, Ht, only_app. simpl.
    rewrite app_nil_r, truthy_shouldSave, Hneq, Hm, orb_false_r.
    reflexivity.
  - subst w2.
    rewrite (finalize_cookies now2 cfg t err chunk encoding w1 He Hf), Hq.
    assert (E : truthy (shouldSetCookie cfg (touched now2 w1 loaded)
                          (resetMaxAge now2 loaded))
                = truthy (rollingSessions cfg)).
    { unfold shouldSetCookie. rewrite isModified_touched, Hm.
      change (cookieId (touched now2 w1 loaded)) with (cookieId w1).
      change (sessionID (req (touched now2 w1 loaded)))
        with (sessionID (req w1)).
      rewrite Hneq.
      destruct (truthy (rollingSessions cfg)); [reflexivity|].
      simpl. now rewrite andb_false_r. }
    rewrite cookie_events_touched, Hhs, Hhk, resetMaxAge_secure, E, Hsid.
    rewrite (issecure_same (req (touched now2 w1 loaded)) (req w)
               (trustProxy cfg) Hcon Hsec Hx).
    rewrite Ht, only_app. simpl. now rewrite app_nil_r.
Qed.

Lemma X19_witness :
  let w1 := session_middleware 0 config_lazy true (Some (GetFound stored_ab))
              (incoming (Some "A")) in
  let w2 := finalize 5 config_lazy CbLater None (Some "ok") None w1 in
  only is_store_get (trace w1) = [EvStoreGet (Some "A")]
  /\ only is_store_set (trace w2) = []
  /\ only is_set_cookie (trace w2) = [].
Proof.
  intros w1 w2.
  assert (Hne : "A" <> EmptyString) by discriminate.
  destruct (X19_found_session_untouched 0 5 config_lazy CbLater None
              (Some "ok") None (incoming (Some "A")) "A" stored_ab
              eq_refl eq_refl eq_refl Hne)
    as (_ & Hg & Hs & Hc).
  split; [exact Hg|]. split; [exact Hs|exact Hc].
Defined.


Lemma trace_emit (e : Event) (w : World) : trace (emit e w) = trace w ++ [e].
Proof. reflexivity. Qed.

Lemma generate_then_next (now : Z) (cfg : Config) (w0 : World) :
  let w' := next None (generate now cfg w0) in
  only is_next (trace w') = only is_next (trace w0) ++ [EvNext None]
  /\ exists s,
       req_session (req w') = Some s
       /\ isModified w' s = false
       /\ id s = sessionID (req w').
Proof.
  intros w'. subst w'.
  destruct (generate_spec now cfg w0) as (Hq & Hsid & Hi & Hh & _ & _ & Ht).
  unfold next. split.
  - now rewrite trace_emit, only_app, Ht.
  - exists (fresh_session now cfg (req w0)).
    change (req (emit (EvNext None) (generate now cfg w0)))
      with (req (generate now cfg w0)).
    split; [exact Hq|]. split; [|now rewrite Hsid].
    unfold isModified.
    change (originalHash (emit (EvNext None) (generate now cfg w0)))
      with (originalHash (generate now cfg w0)).
    change (originalId (emit (EvNext None) (generate now cfg w0)))
      with (originalId (generate now cfg w0)).
    now rewrite Hh, Hi, optnum_neq_refl, optstr_neq_refl.
Qed.

(** X20: once the store has replied, the middleware has called [next]
    exactly once.  It passes an error only when [store.get] failed with
    something other than a miss, and then no session is attached; in every
    other case past the three guards a session is attached whose id is the
    id of the request and which is unmodified with regard to the snapshots
    just taken. *)
Theorem X20_next_called_once (now : Z) (cfg : Config) (storeReady : bool)
  (reply : GetReply) (w : World) :
  let w' := session_middleware now cfg storeReady (Some reply) w in
  exists e,
    only is_next (trace w') = only is_next (trace w) ++ [EvNext e]
    /\ (forall err, e = Some err ->
          reply = GetError err /\ is_miss reply = false
          /\ req_session (req w) = None /\ req_session (req w') = None)
    /\ (e = None -> req_session (req w) = None -> storeReady = true ->
        in_scope cfg (req w) = true ->
        exists s,
          req_session (req w') = Some s
          /\ isModified w' s = false
          /\ id s = sessionID (req w')).
Proof.
  intros w'.
  destruct (req_session (req w)) as [s0|] eqn:Es.
  { destruct (middleware_bypass now cfg storeReady (Some reply) w
                (or_introl (ex_intro _ s0 Es)))
      as (_ & _ & _ & _ & _ & _ & Hn & _).
    exists None. split; [exact Hn|]. split; [discriminate|discriminate]. }
  destruct storeReady.
  2:{ destruct (middleware_bypass now cfg false (Some reply) w
                  (or_intror (or_introl eq_refl)))
        as (_ & _ & _ & _ & _ & _ & Hn & _).
      exists None. split; [exact Hn|]. split; [discriminate|discriminate]. }
  destruct (in_scope cfg (req w)) eqn:Ep.
  2:{ destruct (middleware_bypass now cfg true (Some reply) w
                  (or_intror (or_intror Ep)))
        as (_ & _ & _ & _ & _ & _ & Hn & _).
      exists None. split; [exact Hn|]. split; [discriminate|discriminate]. }
  subst w'. rewrite (session_middleware_entered now cfg _ w Es Ep).
  destruct (optstr_truthy (cookies_get (req w) (name cfg))).
  2:{ destruct (generate_then_next now cfg
                  (emit (EvDebug "no SID sent, generating session")
                     (entered cfg w))) as (Hn & Hx).
      exists None. split.
      - rewrite Hn, trace_emit, only_app. simpl. now rewrite app_nil_r.
      - split; [discriminate|]. intros _ _ _ _. exact Hx. }
  cbv zeta.
  set (w1 := emit (EvStoreGet (cookies_get (req w) (name cfg)))
               (emit (EvDebug "fetching %s") (entered cfg w))).
  assert (Ht1 : only is_next (trace w1) = only is_next (trace w)).
  { subst w1. rewrite !trace_emit, !only_app. simpl.
    now rewrite !app_nil_r. }
  assert (Hgen : forall m,
             exists e,
               only is_next
                 (trace (next None (generate now cfg (emit (EvDebug m) w1))))
               = only is_next (trace w) ++ [EvNext e]
               /\ (forall err, e = Some err ->
                     reply = GetError err /\ is_miss reply = false
                     /\ None = None (A := Session)
                     /\ req_session
                          (req (next None
                                  (generate now cfg (emit (EvDebug m) w1))))
                        = None)
               /\ (e = None -> None = None (A := Session) -> true = true ->
                   true = true ->
                   exists s,
                     req_session
                       (req (next None
                               (generate now cfg (emit (EvDebug m) w1))))
                     = Some s
                     /\ isModified
                          (next None (generate now cfg (emit (EvDebug m) w1)))
                          s = false
                     /\ id s =
                        sessionID
                          (req (next None
                                  (generate now cfg
                                     (emit (EvDebug m) w1)))))).
  { intros m.
    destruct (generate_then_next now cfg (emit (EvDebug m) w1)) as (Hn & Hx).
    exists None. split.
    - rewrite Hn, trace_emit, only_app, Ht1. simpl. now rewrite app_nil_r.
    - split; [discriminate|]. intros _ _ _ _. exact Hx. }
  destruct reply as [err| |rec]; unfold store_get_callback.
  - destruct (match code err with
              | Some c => "ENOENT" =? c
              | None => false
              end) eqn:Ec.
    + apply Hgen.
    + exists (Some err). unfold next. split.
      * rewrite !trace_emit, !only_app, Ht1. simpl. now rewrite !app_nil_r.
      * split; [|discriminate].
        intros err' E. injection E as <-.
        split; [reflexivity|]. split; [exact Ec|]. split; [reflexivity|].
        subst w1. unfold entered. simpl. exact Es.
  - apply Hgen.
  - exists None. unfold next, createSession. split.
    + cbn -[hash]. rewrite !only_app. simpl. rewrite !app_nil_r.
      subst w1. cbn -[hash] in *. rewrite !only_app in *. simpl in *.
      rewrite !app_nil_r in *. reflexivity.
    + split; [discriminate|]. intros _ _ _ _.
      eexists. split; [reflexivity|].
      unfold isModified. cbn -[hash].
      change (JObj (("cookie", cookie_json (st_cookie rec)) :: st_data rec))
        with (stored_obj rec).
      rewrite optnum_neq_refl, optstr_neq_refl. split; reflexivity.
Qed.

End Middleware.
